(** * Version synchroniser of xeus-ocaml: [scripts/sync_version.py]

    The script reads three [#define] lines of the C++ configuration header,
    renders them as a dotted version, loads the packaging recipe with the
    round-trip YAML loader, compares [context.version] with the header's
    version and, unless started with [--check], rewrites the recipe.

    Conventions of the embedding.
    - A Python [str] is a [string]; every character stands for one code
      point below 256.
    - Python exceptions are values of [exn]; [sys.exit] raises [SystemExit]
      as it does in Python.
    - The interpreter state a run can observe or change is a [World]: the two
      files and the log of what the run printed or wrote.
    - The YAML library ([ruamel.yaml]) and the two paths computed from
      [__file__] are not part of the script: they are parameters of
      [Section Script]. *)

From Stdlib Require Import String Ascii List Bool Arith ZArith Lia Permutation.
From Stdlib Require Import DecimalString.
Import ListNotations.
Open Scope string_scope.

(** ** Text utilities *)

Definition nl : string := String (ascii_of_nat 10) EmptyString.

(** [s.startswith(p)] *)
Fixpoint starts_with (p s : string) : bool :=
  match p, s with
  | EmptyString, _ => true
  | String a p', String b s' => Ascii.eqb a b && starts_with p' s'
  | String _ _, EmptyString => false
  end.

(** [s[n:]] *)
Fixpoint drop (n : nat) (s : string) : string :=
  match n, s with
  | O, _ => s
  | S n', String _ s' => drop n' s'
  | S _, EmptyString => EmptyString
  end.

(** The longest prefix of [s] whose characters satisfy [p], and the rest. *)
Fixpoint span (p : ascii -> bool) (s : string) : string * string :=
  match s with
  | EmptyString => (EmptyString, EmptyString)
  | String a s' =>
      if p a then let (h, t) := span p s' in (String a h, t)
      else (EmptyString, s)
  end.

Fixpoint all_chars (p : ascii -> bool) (s : string) : bool :=
  match s with
  | EmptyString => true
  | String a s' => p a && all_chars p s'
  end.

(** [p in s] for strings: [p] occurs somewhere in [s]. *)
Fixpoint contains (p s : string) : bool :=
  starts_with p s ||
  match s with
  | EmptyString => false
  | String _ s' => contains p s'
  end.

(** Does [s] begin with a character satisfying [p]? *)
Definition first_is (p : ascii -> bool) (s : string) : bool :=
  match s with
  | EmptyString => false
  | String c _ => p c
  end.

Definition nonempty (s : string) : bool :=
  match s with
  | EmptyString => false
  | String _ _ => true
  end.

Definition LF : ascii := ascii_of_nat 10.

Definition is_dot (c : ascii) : bool := Nat.eqb (nat_of_ascii c) 46.

Definition is_hash (c : ascii) : bool := Ascii.eqb c "#".
Definition not_hash (c : ascii) : bool := negb (is_hash c).

(** A text ends, or goes on with a [#]. *)
Definition at_boundary (s : string) : bool :=
  match s with
  | EmptyString => true
  | String c _ => is_hash c
  end.

(** [s.splitlines()] for lines that end in LF. *)
Fixpoint split_lines_from (cur s : string) : list string :=
  match s with
  | EmptyString =>
      match cur with
      | EmptyString => []
      | String _ _ => [cur]
      end
  | String c s' =>
      if Ascii.eqb c LF then cur :: split_lines_from EmptyString s'
      else split_lines_from (cur ++ String c EmptyString) s'
  end.

Definition split_lines (s : string) : list string :=
  split_lines_from EmptyString s.

(** ** The regular expressions of [get_version_from_header]

    The three patterns are [LIT\s+(\d+)] for a literal [LIT].  On [str]
    patterns [\s] and [\d] are the Unicode classes; below code point 256
    they are the characters listed here. *)

(** [\s]: TAB LF VT FF CR, FS GS RS US, SPACE, NEL, NBSP. *)
Definition is_space (c : ascii) : bool :=
  let n := nat_of_ascii c in
  (Nat.leb 9 n && Nat.leb n 13) || (Nat.leb 28 n && Nat.leb n 32)
  || Nat.eqb n 133 || Nat.eqb n 160.

(** [\d]: the digits 0 to 9. *)
Definition is_digit (c : ascii) : bool :=
  let n := nat_of_ascii c in Nat.leb 48 n && Nat.leb n 57.

(** A match object, reduced to what the script reads of it: [group(1)]. *)
Record Match := { group1 : string }.

(** [re.match] of [LIT\s+(\d+)] at the start of [s].  Both repetitions are
    greedy and their classes are disjoint, so giving back whitespace or
    digits never turns a failure into a match: the match exists exactly when
    the literal is followed by at least one [\s] and then at least one [\d],
    and the group is the longest run of digits. *)
Definition match_here (lit s : string) : option Match :=
  if starts_with lit s then
    let (ws, r) := span is_space (drop (String.length lit) s) in
    match ws with
    | EmptyString => None
    | String _ _ =>
        let (ds, _) := span is_digit r in
        match ds with
        | EmptyString => None
        | String _ _ => Some {| group1 := ds |}
        end
    end
  else None.

(** [re.search]: the match at the leftmost position that has one. *)
Fixpoint re_search (lit s : string) : option Match :=
  match match_here lit s with
  | Some m => Some m
  | None =>
      match s with
      | EmptyString => None
      | String _ s' => re_search lit s'
      end
  end.

Definition LIT_MAJOR : string := "#define XEUS_OCAML_VERSION_MAJOR".
Definition LIT_MINOR : string := "#define XEUS_OCAML_VERSION_MINOR".
Definition LIT_PATCH : string := "#define XEUS_OCAML_VERSION_PATCH".

(** Lines 21 to 32 of the script: the part of [get_version_from_header] that
    follows the read.  [None] is the branch that raises [RuntimeError]. *)
Definition parse_header (header_content : string) : option string :=
  match re_search LIT_MAJOR header_content,
        re_search LIT_MINOR header_content,
        re_search LIT_PATCH header_content with
  | Some major_match, Some minor_match, Some patch_match =>
      let major := group1 major_match in
      let minor := group1 minor_match in
      let patch := group1 patch_match in
      Some (major ++ "." ++ minor ++ "." ++ patch)
  | _, _, _ => None
  end.

(** ** Python values

    What the round-trip loader hands to the script.  A float is kept as its
    [repr], the shortest decimal text that reads back as the same float
    ([1.10] in the recipe loads as the float whose [repr] is [1.1]).  The
    containers are the loader's [CommentedSeq] and [CommentedMap]: insertion
    ordered, with the comments and layout the loader attached to them in
    [ca]; the script never reads or writes [ca]. *)

#[warnings="-register-all"]
Inductive pyval : Type :=
| PNone
| PBool (b : bool)
| PInt (z : Z)
| PFloat (repr : string)
| PStr (s : string)
| PSeq (ca : string) (items : list pyval)
| PMap (ca : string) (items : list (pyval * pyval)).

Inductive exn : Type :=
| FileNotFoundError (path : string)
| RuntimeError (msg : string)
| KeyError (key : string)
| TypeError (msg : string)
| YAMLError (msg : string)
| SystemExit (code : Z).

Inductive res (A : Type) : Type :=
| Ok (a : A)
| Raise (e : exn).
Arguments Ok {A} a.
Arguments Raise {A} e.

(** [k == key] for a [str] [key]: only an equal [str] compares equal. *)
Definition key_is (key : string) (k : pyval) : bool :=
  match k with
  | PStr s => String.eqb s key
  | _ => false
  end.

Fixpoint lookup (key : string) (items : list (pyval * pyval)) : option pyval :=
  match items with
  | [] => None
  | (k, v) :: rest => if key_is key k then Some v else lookup key rest
  end.

(** [dict.__setitem__]: an existing key keeps its place, a new one goes last. *)
Fixpoint assign (key : string) (v : pyval) (items : list (pyval * pyval))
  : list (pyval * pyval) :=
  match items with
  | [] => [(PStr key, v)]
  | (k, old) :: rest =>
      if key_is key k then (k, v) :: rest else (k, old) :: assign key v rest
  end.

(** [obj[key]] *)
Definition getitem (obj : pyval) (key : string) : res pyval :=
  match obj with
  | PMap _ items =>
      match lookup key items with
      | Some v => Ok v
      | None => Raise (KeyError key)
      end
  | PSeq _ _ => Raise (TypeError "list indices must be integers or slices, not str")
  | PStr _ => Raise (TypeError "string indices must be integers, not 'str'")
  | _ => Raise (TypeError "object is not subscriptable")
  end.

(** [obj[key] = v] *)
Definition setitem (obj : pyval) (key : string) (v : pyval) : res pyval :=
  match obj with
  | PMap ca items => Ok (PMap ca (assign key v items))
  | PSeq _ _ => Raise (TypeError "list indices must be integers or slices, not str")
  | _ => Raise (TypeError "object does not support item assignment")
  end.

(** [str(e)] *)
Definition exn_str (e : exn) : string :=
  match e with
  | FileNotFoundError path =>
      "[Errno 2] No such file or directory: '" ++ path ++ "'"
  | RuntimeError msg => msg
  | KeyError key => "'" ++ key ++ "'"
  | TypeError msg => msg
  | YAMLError msg => msg
  | SystemExit code => NilZero.string_of_int (Z.to_int code)
  end.

(** ** The world of a run *)

Inductive event : Type :=
| Stdout (text : string)      (* [print(text)] *)
| Stderr (text : string)      (* [print(text, file=sys.stderr)] *)
| Dump (content : string)     (* the recipe file rewritten with [content] *)
| Traceback (e : exn).        (* the interpreter reporting an uncaught [e] *)

Record World : Type := {
  header_file : option string;   (* text of the header, [None] when missing *)
  recipe_file : option string;   (* text of the recipe, [None] when missing *)
  log : list event               (* oldest first *)
}.

Definition emit (ev : event) (w : World) : World :=
  {| header_file := header_file w;
     recipe_file := recipe_file w;
     log := log w ++ [ev] |}.

Definition write_recipe (content : string) (w : World) : World :=
  {| header_file := header_file w;
     recipe_file := Some content;
     log := log w ++ [Dump content] |}.

Definition is_dump (ev : event) : bool :=
  match ev with
  | Dump _ => true
  | _ => false
  end.

(** The recipe writes a run added to the log. *)
Definition dumps (l : list event) : list event := filter is_dump l.

(** ** Computations that may raise and that change the world *)

Definition M (A : Type) : Type := World -> res A * World.

Definition ret {A} (a : A) : M A := fun w => (Ok a, w).

Definition bind {A B} (c : M A) (k : A -> M B) : M B :=
  fun w =>
    match c w with
    | (Ok a, w') => k a w'
    | (Raise e, w') => (Raise e, w')
    end.

Definition raise {A} (e : exn) : M A := fun w => (Raise e, w).

Definition lift {A} (r : res A) : M A := fun w => (r, w).

(** [try: c  except ...: h]; [handler e = None] when no clause matches [e]. *)
Definition try_except {A} (c : M A) (handler : exn -> option (M A)) : M A :=
  fun w =>
    match c w with
    | (Ok a, w') => (Ok a, w')
    | (Raise e, w') =>
        match handler e with
        | Some h => h w'
        | None => (Raise e, w')
        end
    end.

Declare Scope py_scope.
Delimit Scope py_scope with py.
Notation "x <- c ;; k" := (bind c (fun x => k))
  (at level 61, c at next level, right associativity) : py_scope.
Notation "c ;; k" := (bind c (fun _ => k))
  (at level 61, right associativity) : py_scope.
Open Scope py_scope.

Definition print (text : string) : M unit := fun w => (Ok tt, emit (Stdout text) w).
Definition print_err (text : string) : M unit := fun w => (Ok tt, emit (Stderr text) w).
Definition sys_exit {A} (code : Z) : M A := raise (SystemExit code).

(** The accented letters of the messages, as code points. *)
Definition a_grave : string := String (ascii_of_nat 224) EmptyString.
Definition e_acute : string := String (ascii_of_nat 233) EmptyString.
Definition e_circ : string := String (ascii_of_nat 234) EmptyString.

(** ** The script *)

Section Script.

(** [str(HEADER_PATH)] and [str(RECIPE_PATH)], computed from [__file__]. *)
Variable HEADER_PATH : string.
Variable RECIPE_PATH : string.

(** The round-trip YAML library on file contents: what [YAML().load]
    constructs from a text (or the exception it raises) and the text
    [YAML().dump] serialises a value to. *)
Variable yaml_load : string -> res pyval.
Variable yaml_dump : pyval -> string.

(** [str] of the loader's containers. *)
Variable container_str : pyval -> string.

(** [str(v)] *)
Definition py_str (v : pyval) : string :=
  match v with
  | PNone => "None"
  | PBool true => "True"
  | PBool false => "False"
  | PInt z => NilZero.string_of_int (Z.to_int z)
  | PFloat repr => repr
  | PStr s => s
  | PSeq _ _ | PMap _ _ => container_str v
  end.

(** [HEADER_PATH.read_text()] *)
Definition read_text_header : M string :=
  fun w =>
    match header_file w with
    | Some text => (Ok text, w)
    | None => (Raise (FileNotFoundError HEADER_PATH), w)
    end.

(** [yaml.load(RECIPE_PATH)] *)
Definition load_recipe : M pyval :=
  fun w =>
    match recipe_file w with
    | Some text => (yaml_load text, w)
    | None => (Raise (FileNotFoundError RECIPE_PATH), w)
    end.

(** [yaml.dump(data, RECIPE_PATH)] *)
Definition dump_recipe (data : pyval) : M unit :=
  fun w => (Ok tt, write_recipe (yaml_dump data) w).

Definition header_missing_message : string :=
  "Fichier d'en-t" ++ e_circ ++ "te introuvable " ++ a_grave ++ " : "
  ++ HEADER_PATH.

Definition header_unparsed_message : string :=
  "Impossible d'analyser la version depuis " ++ HEADER_PATH.

Definition get_version_from_header : M string :=
  header_content <-
    try_except read_text_header
      (fun e =>
         match e with
         | FileNotFoundError _ =>
             Some (raise (RuntimeError header_missing_message))
         | _ => None
         end) ;;
  match parse_header header_content with
  | None => raise (RuntimeError header_unparsed_message)
  | Some version => ret version
  end.

Definition mismatch_message (header_version recipe_version : string) : string :=
  "Erreur : Les versions ne correspondent pas !" ++ nl ++
  "  En-t" ++ e_circ ++ "te (" ++ HEADER_PATH ++ "):    " ++ header_version ++ nl ++
  "  Recette (" ++ RECIPE_PATH ++ "): " ++ recipe_version ++ nl ++
  "Veuillez lancer 'pixi run sync-version' et committer les changements.".

Definition synced_message (header_version : string) : string :=
  "Les versions sont synchronis" ++ e_acute ++ "es : " ++ header_version.

Definition update_message (recipe_version header_version : string) : string :=
  "Mise " ++ a_grave ++ " jour de la version de la recette de "
  ++ recipe_version ++ " " ++ a_grave ++ " " ++ header_version ++ "...".

Definition done_message : string := "Termin" ++ e_acute ++ ".".

Definition recipe_missing_message : string :=
  "Erreur : Fichier recette introuvable " ++ a_grave ++ " : " ++ RECIPE_PATH.

(** [recipe_data['context']['version'] = header_version].  The inner
    mapping is changed in place; [recipe_data] holds that same object, which
    the tree model shows by storing the changed mapping back under the key
    it was read from. *)
Definition set_context_version (recipe_data : pyval) (header_version : string)
  : res pyval :=
  match getitem recipe_data "context" with
  | Raise e => Raise e
  | Ok context =>
      match setitem context "version" (PStr header_version) with
      | Raise e => Raise e
      | Ok context' => setitem recipe_data "context" context'
      end
  end.

Definition main (check_only : bool) : M unit :=
  header_version <-
    try_except get_version_from_header
      (fun e =>
         match e with
         | RuntimeError _ | FileNotFoundError _ =>
             Some (print_err ("Erreur : " ++ exn_str e) ;; sys_exit 1)
         | _ => None
         end) ;;
  recipe_data <-
    try_except load_recipe
      (fun e =>
         match e with
         | FileNotFoundError _ =>
             Some (print_err recipe_missing_message ;; sys_exit 1)
         | _ => None
         end) ;;
  context <- lift (getitem recipe_data "context") ;;
  version <- lift (getitem context "version") ;;
  let recipe_version := py_str version in
  (if String.eqb header_version recipe_version
   then print (synced_message header_version) ;; sys_exit 0
   else ret tt) ;;
  if check_only
  then print_err (mismatch_message header_version recipe_version) ;;
       sys_exit 1
  else print (update_message recipe_version header_version) ;;
       recipe_data' <- lift (set_context_version recipe_data header_version) ;;
       dump_recipe recipe_data' ;;
       print done_message.

(** [if __name__ == "__main__":] with [sys.argv = argv]. *)
Definition script (argv : list string) : M unit :=
  let is_check := existsb (String.eqb "--check") argv in
  main is_check.

(** The interpreter around the script: an uncaught exception other than
    [SystemExit] is reported with a traceback. *)
Definition run (argv : list string) (w : World) : res unit * World :=
  match script argv w with
  | (Raise (SystemExit code), w') => (Raise (SystemExit code), w')
  | (Raise e, w') => (Raise e, emit (Traceback e) w')
  | (Ok tt, w') => (Ok tt, w')
  end.

(** The exit status of the process. *)
Definition exit_status (r : res unit) : Z :=
  match r with
  | Ok _ => 0
  | Raise (SystemExit code) => code
  | Raise _ => 1
  end.

End Script.

(** ** A reference instance of the YAML library

    The script's results depend on [ruamel.yaml] only through what it loads
    and what it dumps.  [MiniYaml] is an executable instance of that
    interface on a fragment of YAML, with the library's default round-trip
    settings: a block mapping whose values are scalars or one nested block
    mapping of scalars (indented by two spaces), scalars plain or
    quoted.  As in the library with [preserve_quotes] unset, a quoted
    scalar loads as a plain [str], and a [str] is dumped without quotes
    unless it would read back as something else, in which case it is dumped
    in single quotes.  A text outside the fragment is answered with
    [YAMLError]; a value outside the fragment is dumped as the empty text. *)

Module MiniYaml.

Definition between (lo hi : nat) (c : ascii) : bool :=
  Nat.leb lo (nat_of_ascii c) && Nat.leb (nat_of_ascii c) hi.

Definition is_letter (c : ascii) : bool := between 65 90 c || between 97 122 c.

(** Characters of a key: letters, digits, [_] and [-]. *)
Definition is_key_char (c : ascii) : bool :=
  is_letter c || is_digit c
  || Nat.eqb (nat_of_ascii c) 95 || Nat.eqb (nat_of_ascii c) 45.


(** Characters of a plain scalar: those of a key and [.]. *)
Definition is_plain_char (c : ascii) : bool := is_key_char c || is_dot c.

(** Characters allowed between quotes: printable ASCII but the two quote
    characters and the backslash. *)
Definition is_quotable (c : ascii) : bool :=
  between 32 126 c
  && negb (Nat.eqb (nat_of_ascii c) 34)
  && negb (Nat.eqb (nat_of_ascii c) 39)
  && negb (Nat.eqb (nat_of_ascii c) 92).

Definition lower (c : ascii) : ascii :=
  if between 65 90 c then ascii_of_nat (nat_of_ascii c + 32) else c.

Fixpoint lowercase (s : string) : string :=
  match s with
  | EmptyString => EmptyString
  | String c s' => String (lower c) (lowercase s')
  end.

(** Words the resolver may read as a boolean or as null. *)
Definition reserved (s : string) : bool :=
  existsb (String.eqb (lowercase s))
    ["true"; "false"; "null"; "yes"; "no"; "on"; "off"; "y"; "n"].

Fixpoint count_dots (s : string) : nat :=
  match s with
  | EmptyString => 0
  | String c s' => (if is_dot c then 1 else 0) + count_dots s'
  end.

(** Trailing zeros removed, one digit kept. *)
Fixpoint strip_zeros (s : string) : string :=
  match s with
  | EmptyString => EmptyString
  | String c s' =>
      match strip_zeros s' with
      | EmptyString =>
          if Nat.eqb (nat_of_ascii c) 48 then EmptyString
          else String c EmptyString
      | String _ _ as t => String c t
      end
  end.

Definition float_repr (int_part frac : string) : string :=
  int_part ++ "." ++
  match strip_zeros frac with
  | EmptyString => "0"
  | String _ _ as f => f
  end.

Definition no_leading_zero (s : string) : bool :=
  match s with
  | String c (String _ _) => negb (Nat.eqb (nat_of_ascii c) 48)
  | _ => true
  end.

(** The implicit type of a plain scalar. *)
Definition resolve_plain (s : string) : option pyval :=
  if negb (all_chars is_plain_char s) then None
  else if first_is is_letter s then
    if reserved s then None else Some (PStr s)
  else if negb (first_is is_digit s) then None
  else if all_chars is_digit s then
    if no_leading_zero s then
      match NilZero.uint_of_string s with
      | Some u => Some (PInt (Z.of_uint u))
      | None => None
      end
    else None
  else if negb (all_chars (fun c => is_digit c || is_dot c) s) then None
  else
    match count_dots s with
    | 1 =>
        let (int_part, rest) := span is_digit s in
        let frac := drop 1 rest in
        if no_leading_zero int_part
           && negb (first_is (fun c => Nat.eqb (nat_of_ascii c) 48) int_part)
           && first_is is_digit frac
           && Nat.leb (String.length int_part + String.length frac) 15
        then Some (PFloat (float_repr int_part frac))
        else None
    | _ => Some (PStr s)
    end.

Definition DQ : string := String (ascii_of_nat 34) EmptyString.
Definition SQ : string := String (ascii_of_nat 39) EmptyString.

Definition parse_scalar (s : string) : option pyval :=
  if starts_with DQ s then
    let (body, rest) := span is_quotable (drop 1 s) in
    if String.eqb rest DQ then Some (PStr body) else None
  else if starts_with SQ s then
    let (body, rest) := span is_quotable (drop 1 s) in
    if String.eqb rest SQ then Some (PStr body) else None
  else resolve_plain s.

(** [key:] or [key: scalar] *)
Definition parse_entry (s : string) : option (string * option pyval) :=
  let (k, rest) := span is_key_char s in
  match k with
  | EmptyString => None
  | String _ _ =>
      if String.eqb rest ":" then Some (k, None)
      else if starts_with ": " rest then
        match parse_scalar (drop 2 rest) with
        | Some v => Some (k, Some v)
        | None => None
        end
      else None
  end.

Inductive token : Type :=
| Top (k : string) (v : option pyval)
| Nested (k : string) (v : pyval).

Definition tokenize (line : string) : option token :=
  if starts_with "  " line then
    match parse_entry (drop 2 line) with
    | Some (k, Some v) => Some (Nested k v)
    | _ => None
    end
  else
    match parse_entry line with
    | Some (k, v) => Some (Top k v)
    | None => None
    end.

Fixpoint tokenize_all (ls : list string) : option (list token) :=
  match ls with
  | [] => Some []
  | l :: rest =>
      match tokenize l, tokenize_all rest with
      | Some t, Some ts => Some (t :: ts)
      | _, _ => None
      end
  end.

Definition has_key (k : string) (items : list (pyval * pyval)) : bool :=
  match lookup k items with
  | Some _ => true
  | None => false
  end.

(** The tokens from the last to the first: the nested entries met so far
    wait in [pending] for the key that opens them. *)
Fixpoint build (ts : list token)
  : option (list (pyval * pyval) * list (pyval * pyval)) :=
  match ts with
  | [] => Some ([], [])
  | t :: rest =>
      match build rest with
      | None => None
      | Some (pending, done) =>
          match t with
          | Nested k v =>
              if has_key k pending then None
              else Some ((PStr k, v) :: pending, done)
          | Top k None =>
              match pending with
              | [] => None
              | _ :: _ =>
                  if has_key k done then None
                  else Some ([], (PStr k, PMap "" pending) :: done)
              end
          | Top k (Some v) =>
              match pending with
              | [] =>
                  if has_key k done then None
                  else Some ([], (PStr k, v) :: done)
              | _ :: _ => None
              end
          end
      end
  end.

Definition outside : exn := YAMLError "outside the fragment".

Definition load (text : string) : res pyval :=
  match split_lines text with
  | [] => Ok PNone
  | ls =>
      match tokenize_all ls with
      | None => Raise outside
      | Some ts =>
          match build ts with
          | Some ([], items) => Ok (PMap "" items)
          | _ => Raise outside
          end
      end
  end.

Definition dump_scalar (v : pyval) : option string :=
  match v with
  | PStr s =>
      match resolve_plain s with
      | Some (PStr _) => Some s
      | _ => if all_chars is_quotable s then Some (SQ ++ s ++ SQ) else None
      end
  | PInt z => Some (NilZero.string_of_int (Z.to_int z))
  | PFloat repr => Some repr
  | PBool true => Some "true"
  | PBool false => Some "false"
  | _ => None
  end.

Definition dump_key (k : pyval) : option string :=
  match k with
  | PStr s =>
      if all_chars is_key_char s && negb (String.eqb s "") then Some s
      else None
  | _ => None
  end.

Fixpoint dump_scalars (indent : string) (items : list (pyval * pyval))
  : option string :=
  match items with
  | [] => Some EmptyString
  | (k, v) :: rest =>
      match dump_key k, dump_scalar v, dump_scalars indent rest with
      | Some ks, Some vs, Some more =>
          Some (indent ++ ks ++ ": " ++ vs ++ nl ++ more)
      | _, _, _ => None
      end
  end.

Fixpoint dump_items (items : list (pyval * pyval)) : option string :=
  match items with
  | [] => Some EmptyString
  | (k, v) :: rest =>
      match dump_key k, dump_items rest with
      | Some ks, Some more =>
          match v with
          | PMap _ ((_ :: _) as inner) =>
              match dump_scalars "  " inner with
              | Some body => Some (ks ++ ":" ++ nl ++ body ++ more)
              | None => None
              end
          | _ =>
              match dump_scalar v with
              | Some vs => Some (ks ++ ": " ++ vs ++ nl ++ more)
              | None => None
              end
          end
      | _, _ => None
      end
  end.

Definition dump (data : pyval) : string :=
  match data with
  | PMap _ items =>
      match dump_items items with
      | Some text => text
      | None => EmptyString
      end
  | _ => EmptyString
  end.

(** [str] of a container; no run below reaches it with one. *)
Definition container_str (v : pyval) : string := "CommentedMap(...)".

End MiniYaml.

(** ** Vocabulary of the properties

    The definitions below belong to the statements, not to the script. *)

(** *** Headers made of [#define] lines *)

Inductive marker : Type := MAJOR | MINOR | PATCH.

Definition marker_eqb (a b : marker) : bool :=
  match a, b with
  | MAJOR, MAJOR | MINOR, MINOR | PATCH, PATCH => true
  | _, _ => false
  end.

Definition literal (m : marker) : string :=
  match m with
  | MAJOR => LIT_MAJOR
  | MINOR => LIT_MINOR
  | PATCH => LIT_PATCH
  end.

(** One marker line and the unrelated text that follows it, up to the next
    marker line: the marker, the whitespace after it, its digits, the text. *)
Record define_line : Type := {
  name : marker;
  gap : string;
  digits : string;
  trailing : string
}.

Definition line_text (l : define_line) : string :=
  literal (name l) ++ gap l ++ digits l ++ trailing l.

Fixpoint lines_text (ls : list define_line) : string :=
  match ls with
  | [] => EmptyString
  | l :: rest => line_text l ++ lines_text rest
  end.

(** A header: unrelated text, then marker lines in any order. *)
Definition header_text (leading : string) (ls : list define_line) : string :=
  leading ++ lines_text ls.

(** A text is unrelated when none of the three markers occurs in it. *)
Definition unrelated (t : string) : bool :=
  negb (contains LIT_MAJOR t) && negb (contains LIT_MINOR t)
  && negb (contains LIT_PATCH t).

(** The marker is followed by whitespace and by digits, and the digits end
    where the unrelated text begins. *)
Definition wf_line (l : define_line) : bool :=
  nonempty (gap l) && all_chars is_space (gap l)
  && nonempty (digits l) && all_chars is_digit (digits l)
  && unrelated (trailing l) && negb (first_is is_digit (trailing l)).

(** The digits of the first line of marker [m]. *)
Fixpoint value_of (m : marker) (ls : list define_line) : option string :=
  match ls with
  | [] => None
  | l :: rest => if marker_eqb m (name l) then Some (digits l) else value_of m rest
  end.

(** What a marker line says: the marker and its digits. *)
Definition entry (l : define_line) : marker * string := (name l, digits l).

(** *** Version triples *)

(** [int(ds)] for a text of digits. *)
Definition int_of_digits (ds : string) : N :=
  match NilZero.uint_of_string ds with
  | Some u => N.of_uint u
  | None => 0%N
  end.


(** [s.split(".")] *)
Fixpoint split_dots (s : string) : list string :=
  match s with
  | EmptyString => [EmptyString]
  | String c s' =>
      if is_dot c then EmptyString :: split_dots s'
      else
        match split_dots s' with
        | h :: t => String c h :: t
        | [] => [String c EmptyString]
        end
  end.

(** The triple of integers a dotted version denotes. *)
Definition triple_of_dotted (s : string) : option (N * N * N) :=
  match split_dots s with
  | [a; b; c] =>
      if nonempty a && all_chars is_digit a
         && nonempty b && all_chars is_digit b
         && nonempty c && all_chars is_digit c
      then Some (int_of_digits a, int_of_digits b, int_of_digits c)
      else None
  | _ => None
  end.

(** *** Markers and their values in an arbitrary header *)

(** Somewhere in [content] the literal is followed by whitespace and by a
    digit. *)
Definition defines (lit content : string) : Prop :=
  exists pre ws d post,
    content = pre ++ lit ++ ws ++ String d post
    /\ nonempty ws = true /\ all_chars is_space ws = true /\ is_digit d = true.



Definition numeric (s : string) : bool := nonempty s && all_chars is_digit s.

(** *** Recipes *)

(** The recipe loaded with only the value at [context.version] replaced by
    the text [hv]: same keys in the same order, same other values, same
    comments. *)
Inductive only_version_replaced (hv : string) : pyval -> pyval -> Prop :=
| OnlyVersion ca pre k cca cpre ck old cpost post :
    key_is "context" k = true -> lookup "context" pre = None ->
    key_is "version" ck = true -> lookup "version" cpre = None ->
    only_version_replaced hv
      (PMap ca (pre ++ (k, PMap cca (cpre ++ (ck, old) :: cpost)) :: post))
      (PMap ca (pre ++ (k, PMap cca (cpre ++ (ck, PStr hv) :: cpost)) :: post)).




Section Reading.

Variable yaml_load : string -> res pyval.
Variable container_str : pyval -> string.

(** Lines 47 and 52 of the script on a recipe text: the version a later
    run reads back. *)
Definition read_version (text : string) : res string :=
  match yaml_load text with
  | Raise e => Raise e
  | Ok recipe_data =>
      match getitem recipe_data "context" with
      | Raise e => Raise e
      | Ok context =>
          match getitem context "version" with
          | Raise e => Raise e
          | Ok version => Ok (py_str container_str version)
          end
      end
  end.

(** The ways a run stops before the write step: the header is missing,
    the header has no version, the recipe is missing, the recipe does not
    load or has no [context.version], the versions differ in check mode. *)
Inductive stops_before_write (check_only : bool) (w : World) : Prop :=
| Missing_header :
    header_file w = None -> stops_before_write check_only w
| Parse_failure content :
    header_file w = Some content -> parse_header content = None ->
    stops_before_write check_only w
| Missing_recipe content hv :
    header_file w = Some content -> parse_header content = Some hv ->
    recipe_file w = None -> stops_before_write check_only w
| Schema_failure content hv text e :
    header_file w = Some content -> parse_header content = Some hv ->
    recipe_file w = Some text -> read_version text = Raise e ->
    stops_before_write check_only w
| Check_mismatch content hv text rv :
    header_file w = Some content -> parse_header content = Some hv ->
    recipe_file w = Some text -> read_version text = Ok rv ->
    rv <> hv -> check_only = true -> stops_before_write check_only w.

End Reading.

(** *** Concrete runs *)

Module Demo.

Definition HEADER_PATH : string := "/src/include/xeus_ocaml_config.hpp".
Definition RECIPE_PATH : string := "/src/recipe/recipe-prod.yaml".

Definition run : list string -> World -> res unit * World :=
  run HEADER_PATH RECIPE_PATH MiniYaml.load MiniYaml.dump
      MiniYaml.container_str.

Definition header (major minor patch : string) : string :=
  "#pragma once" ++ nl ++
  "#define XEUS_OCAML_VERSION_MAJOR " ++ major ++ nl ++
  "#define XEUS_OCAML_VERSION_MINOR " ++ minor ++ nl ++
  "#define XEUS_OCAML_VERSION_PATCH " ++ patch ++ nl.

Definition recipe (version name : string) : string :=
  "context:" ++ nl ++
  "  version: " ++ version ++ nl ++
  "  name: " ++ name ++ nl.

Definition quoted (s : string) : string := MiniYaml.DQ ++ s ++ MiniYaml.DQ.

Definition world (header_content recipe_content : option string) : World :=
  {| header_file := header_content;
     recipe_file := recipe_content;
     log := [] |}.

End Demo.

(** *** Further vocabulary *)

Definition no_dot (c : ascii) : bool := negb (is_dot c).

(** The loader's mappings, the only values [obj[key]] reads with a [str]. *)
Definition is_mapping (v : pyval) : bool :=
  match v with
  | PMap _ _ => true
  | _ => false
  end.

(** The scalars that are not a [str] and whose [str] is fixed by Python. *)
Definition is_plain_scalar (v : pyval) : bool :=
  match v with
  | PNone | PBool _ | PInt _ => true
  | _ => false
  end.



(** The shortest text in which a marker has a value: the marker, one
    whitespace, one digit. *)
Definition shortest_definition : nat := String.length LIT_MAJOR + 2.

Module Edge.

Import Demo.

(** An empty header file. *)
Definition empty_header : World :=
  world (Some EmptyString) (Some (recipe "1.2.3" "xeus-ocaml")).

(** No recipe file. *)
Definition no_recipe : World := world (Some (header "1" "3" "0")) None.

(** A recipe outside the fragment [MiniYaml] loads. *)
Definition broken_recipe : World :=
  world (Some (header "1" "3" "0")) (Some ("context: [" ++ nl)).

(** A recipe whose context is a text, not a mapping. *)
Definition flat_context : World :=
  world (Some (header "1" "3" "0")) (Some ("context: none" ++ nl)).

(** A recipe whose version reads as an integer. *)
Definition integer_version : World :=
  world (Some (header "1" "3" "0")) (Some (recipe "13" "xeus-ocaml")).

(** Marker lines of scenario 3 and a second definition of each marker. *)
Definition once : list define_line :=
  [ {| name := MAJOR; gap := " "; digits := "1"; trailing := nl |};
    {| name := MINOR; gap := " "; digits := "3"; trailing := nl |};
    {| name := PATCH; gap := " "; digits := "0"; trailing := nl |} ].

Definition again : list define_line :=
  [ {| name := MAJOR; gap := " "; digits := "9"; trailing := nl |};
    {| name := PATCH; gap := " "; digits := "9"; trailing := nl |} ].

Definition loaded : pyval :=
  PMap "" [(PStr "context",
            PMap "" [(PStr "version", PStr "1.2.3");
                     (PStr "name", PStr "xeus-ocaml")]);
           (PStr "build", PInt 5)].

End Edge.

(** The scenarios of the specification and a few more. *)

Module Scenario.

Import Demo.

Definition sync : list string := ["sync_version.py"].
Definition check : list string := ["sync_version.py"; "--check"].

(** Scenario 1 of the specification. *)
Definition synced : World :=
  world (Some (header "1" "2" "3")) (Some (recipe "1.2.3" "xeus-ocaml")).

(** Scenarios 2 and 3. *)
Definition drifted : World :=
  world (Some (header "1" "3" "0")) (Some (recipe "1.2.3" "xeus-ocaml")).


(** A header that gives no patch number. *)
Definition no_patch : World :=
  world (Some ("#define XEUS_OCAML_VERSION_MAJOR 1" ++ nl ++
               "#define XEUS_OCAML_VERSION_MINOR 3" ++ nl))
        (Some (recipe "1.2.3" "xeus-ocaml")).

(** A recipe whose context has no version. *)
Definition no_version : World :=
  world (Some (header "1" "3" "0"))
        (Some ("context:" ++ nl ++ "  name: xeus-ocaml" ++ nl)).


(** The recipe of scenario 3 with its two texts in double quotes. *)
Definition quoted_recipe : string :=
  recipe (quoted "1.2.3") (quoted "xeus-ocaml").

Definition drifted_quoted : World :=
  world (Some (header "1" "3" "0")) (Some quoted_recipe).


(** The three marker lines in the order minor, patch, major, with tabs,
    several blanks and a line break as whitespace, between comments. *)
Definition shuffled : list define_line :=
  [ {| name := MINOR; gap := "   "; digits := "3";
       trailing := nl ++ "// patch level" ++ nl |};
    {| name := PATCH; gap := String (ascii_of_nat 9) EmptyString;
       digits := "0"; trailing := nl |};
    {| name := MAJOR; gap := " " ++ nl ++ "  "; digits := "12";
       trailing := " // major" ++ nl ++ "#endif" ++ nl |} ].

Definition shuffled_world : World :=
  world (Some (header_text ("#pragma once" ++ nl) shuffled)) None.

End Scenario.

(** * Properties *)

(** ** Texts *)

Lemma append_assoc (a b c : string) : (a ++ b) ++ c = a ++ b ++ c.
Proof. induction a as [|x a IH]; simpl; [reflexivity | now rewrite IH]. Qed.

Lemma append_nil_r (a : string) : a ++ "" = a.
Proof. induction a as [|x a IH]; simpl; [reflexivity | now rewrite IH]. Qed.

Lemma starts_with_app (p r : string) : starts_with p (p ++ r) = true.
Proof.
  induction p as [|x p IH]; simpl; [reflexivity|].
  now rewrite Ascii.eqb_refl, IH.
Qed.

Lemma starts_with_inv (p s : string) :
  starts_with p s = true -> s = p ++ drop (String.length p) s.
Proof.
  revert s; induction p as [|x p IH]; intros [|y s]; simpl; try easy.
  intros H; apply andb_true_iff in H as [Hxy Hps].
  apply Ascii.eqb_eq in Hxy; subst y.
  f_equal; now apply IH.
Qed.

Lemma drop_app (p r : string) : drop (String.length p) (p ++ r) = r.
Proof. induction p as [|x p IH]; simpl; [now destruct r | exact IH]. Qed.

Lemma all_chars_app (f : ascii -> bool) (a b : string) :
  all_chars f (a ++ b) = all_chars f a && all_chars f b.
Proof.
  induction a as [|x a IH]; simpl; [reflexivity|].
  now rewrite IH, andb_assoc.
Qed.

Lemma all_chars_impl (f g : ascii -> bool) (s : string) :
  (forall c, f c = true -> g c = true) ->
  all_chars f s = true -> all_chars g s = true.
Proof.
  intros Hfg; induction s as [|x s IH]; simpl; [reflexivity|].
  intros H; apply andb_true_iff in H as [Hx Hs].
  now rewrite (Hfg _ Hx), IH.
Qed.

Lemma span_app (f : ascii -> bool) (h t : string) :
  all_chars f h = true -> first_is f t = false -> span f (h ++ t) = (h, t).
Proof.
  intros Hh Ht; induction h as [|x h IH]; simpl in *.
  - destruct t as [|y t]; simpl in *; [reflexivity | now rewrite Ht].
  - apply andb_true_iff in Hh as [Hx Hh]. now rewrite Hx, IH.
Qed.

Lemma span_spec (f : ascii -> bool) (s h t : string) :
  span f s = (h, t) ->
  s = h ++ t /\ all_chars f h = true /\ first_is f t = false.
Proof.
  revert h t; induction s as [|x s IH]; simpl; intros h t H.
  - now inversion H.
  - destruct (f x) eqn:Hx.
    + destruct (span f s) as [h' t'] eqn:Hs. inversion H; subst.
      destruct (IH _ _ eq_refl) as (-> & Hh & Ht).
      simpl. now rewrite Hx, Hh.
    + inversion H; subst. simpl. now rewrite Hx.
Qed.

Lemma first_is_app (f : ascii -> bool) (a b : string) :
  first_is f (a ++ b) = if nonempty a then first_is f a else first_is f b.
Proof. now destruct a. Qed.

(** ** Character classes *)

Lemma digit_not_space (c : ascii) : is_digit c = true -> is_space c = false.
Proof. destruct c as [[] [] [] [] [] [] [] []]; now vm_compute. Qed.

Lemma space_not_hash (c : ascii) : is_space c = true -> not_hash c = true.
Proof. destruct c as [[] [] [] [] [] [] [] []]; now vm_compute. Qed.

Lemma digit_not_hash (c : ascii) : is_digit c = true -> not_hash c = true.
Proof. destruct c as [[] [] [] [] [] [] [] []]; now vm_compute. Qed.

Lemma digit_not_dot (c : ascii) : is_digit c = true -> is_dot c = false.
Proof. destruct c as [[] [] [] [] [] [] [] []]; now vm_compute. Qed.

Lemma hash_not_digit (c : ascii) : is_hash c = true -> is_digit c = false.
Proof. destruct c as [[] [] [] [] [] [] [] []]; now vm_compute. Qed.

(** ** Searching a header *)

Lemma re_search_eq (lit s : string) :
  re_search lit s =
  match match_here lit s with
  | Some m => Some m
  | None =>
      match s with
      | EmptyString => None
      | String _ s' => re_search lit s'
      end
  end.
Proof. now destruct s. Qed.

Lemma match_here_prefix (lit s : string) :
  starts_with lit s = false -> match_here lit s = None.
Proof. unfold match_here; now intros ->. Qed.

(** A literal followed by whitespace, digits and something that is not a
    digit matches, and the group is the digits. *)
Lemma match_here_value (lit ws ds rest : string) :
  nonempty ws = true -> all_chars is_space ws = true ->
  nonempty ds = true -> all_chars is_digit ds = true ->
  first_is is_digit rest = false ->
  match_here lit (lit ++ ws ++ ds ++ rest) = Some {| group1 := ds |}.
Proof.
  intros Hws1 Hws Hds1 Hds Hrest.
  unfold match_here. rewrite starts_with_app, drop_app.
  rewrite (span_app is_space ws (ds ++ rest) Hws).
  - destruct ws; [discriminate|].
    rewrite (span_app is_digit ds rest Hds Hrest).
    now destruct ds.
  - destruct ds as [|d ds]; [discriminate|]. simpl in *.
    apply andb_true_iff in Hds as [Hd _]. now apply digit_not_space.
Qed.

Lemma literal_hash (m : marker) :
  exists tl, literal m = String "#" tl /\ all_chars not_hash tl = true.
Proof. destruct m; eexists; split; reflexivity. Qed.

Lemma starts_with_not_hash (m : marker) (c : ascii) (s : string) :
  not_hash c = true -> starts_with (literal m) (String c s) = false.
Proof.
  intros Hc. destruct (literal_hash m) as (tl & -> & _).
  unfold not_hash, is_hash in Hc. apply negb_true_iff in Hc.
  change (starts_with (String "#" tl) (String c s))
    with (Ascii.eqb "#" c && starts_with tl s).
  now rewrite Ascii.eqb_sym, Hc.
Qed.

(** No match starts in a text that has no [#]. *)
Lemma re_search_skip_no_hash (m : marker) (x rest : string) :
  all_chars not_hash x = true ->
  re_search (literal m) (x ++ rest) = re_search (literal m) rest.
Proof.
  induction x as [|c x IH]; simpl append; intros Hx; [reflexivity|].
  simpl in Hx. apply andb_true_iff in Hx as [Hc Hx].
  rewrite re_search_eq, match_here_prefix by now apply starts_with_not_hash.
  now apply IH.
Qed.

Lemma starts_with_app_cases (p t rest : string) :
  starts_with p (t ++ rest) = true ->
  starts_with p t = true
  \/ (String.length t < String.length p
      /\ starts_with (drop (String.length t) p) rest = true).
Proof.
  revert p; induction t as [|a t IH]; intros [|b p]; simpl; intros H;
    try (now left).
  - right. split; [lia | exact H].
  - apply andb_true_iff in H as [Hab H].
    destruct (IH _ H) as [Hl | [Hlen Hr]].
    + left. now rewrite Hab, Hl.
    + right. split; [lia | exact Hr].
Qed.

Lemma drop_no_hash (n : nat) (s : string) :
  all_chars not_hash s = true -> first_is is_hash (drop n s) = false.
Proof.
  revert s; induction n as [|n IH]; intros [|c s]; simpl; try easy.
  - intros H; apply andb_true_iff in H as [Hc _].
    unfold not_hash in Hc. now destruct (is_hash c).
  - intros H; apply andb_true_iff in H as [_ Hs]. now apply IH.
Qed.

Lemma drop_nonempty (n : nat) (s : string) :
  n < String.length s -> nonempty (drop n s) = true.
Proof.
  revert s; induction n as [|n IH]; intros [|c s]; simpl; try lia; try easy.
  intros H. apply IH. lia.
Qed.

(** A marker cannot begin in an unrelated text and end in what follows it,
    when what follows begins with a [#] or is empty. *)
Lemma starts_with_straddle (m : marker) (c : ascii) (t rest : string) :
  at_boundary rest = true ->
  starts_with (literal m) (String c t ++ rest) = true ->
  starts_with (literal m) (String c t) = true.
Proof.
  intros Hb H. apply starts_with_app_cases in H as [H | [Hlen H]]; [exact H|].
  exfalso. destruct (literal_hash m) as (tl & Hlit & Htl).
  rewrite Hlit in Hlen, H. simpl in Hlen, H.
  assert (Hne : nonempty (drop (String.length t) tl) = true)
    by (apply drop_nonempty; lia).
  pose proof (drop_no_hash (String.length t) tl Htl) as Hnh.
  destruct (drop (String.length t) tl) as [|d q]; [discriminate|].
  destruct rest as [|r rest]; simpl in *; [discriminate|].
  apply andb_true_iff in H as [Hdr _]. apply Ascii.eqb_eq in Hdr; subst r.
  congruence.
Qed.

Lemma contains_cons (p : string) (c : ascii) (s : string) :
  contains p (String c s) = false ->
  starts_with p (String c s) = false /\ contains p s = false.
Proof.
  intros H. change (contains p (String c s))
    with (starts_with p (String c s) || contains p s) in H.
  now apply orb_false_iff in H.
Qed.

(** No match starts in an unrelated text followed by a boundary. *)
Lemma re_search_skip_unrelated (m : marker) (t rest : string) :
  contains (literal m) t = false -> at_boundary rest = true ->
  re_search (literal m) (t ++ rest) = re_search (literal m) rest.
Proof.
  intros Ht Hb; induction t as [|c t IH]; [reflexivity|].
  apply contains_cons in Ht as [Hsw Ht].
  rewrite re_search_eq, match_here_prefix.
  - simpl append. now apply IH.
  - destruct (starts_with (literal m) (String c t ++ rest)) eqn:E;
      [|reflexivity].
    apply starts_with_straddle in E; [congruence | exact Hb].
Qed.

Lemma unrelated_contains (m : marker) (t : string) :
  unrelated t = true -> contains (literal m) t = false.
Proof.
  unfold unrelated. intros H.
  apply andb_true_iff in H as [H H3]. apply andb_true_iff in H as [H1 H2].
  destruct m; simpl; apply negb_true_iff; assumption.
Qed.

Lemma lines_text_boundary (ls : list define_line) :
  at_boundary (lines_text ls) = true.
Proof.
  destruct ls as [|l ls]; [reflexivity|]. simpl. unfold line_text.
  destruct (literal_hash (name l)) as (tl & -> & _). reflexivity.
Qed.

Lemma marker_eqb_eq (a b : marker) : marker_eqb a b = true <-> a = b.
Proof. destruct a, b; simpl; split; congruence. Qed.

Lemma starts_with_other (a b : marker) (s : string) :
  marker_eqb a b = false -> starts_with (literal a) (literal b ++ s) = false.
Proof. destruct a, b; simpl; congruence. Qed.

Lemma wf_line_parts (l : define_line) :
  wf_line l = true ->
  nonempty (gap l) = true /\ all_chars is_space (gap l) = true
  /\ nonempty (digits l) = true /\ all_chars is_digit (digits l) = true
  /\ unrelated (trailing l) = true /\ first_is is_digit (trailing l) = false.
Proof.
  unfold wf_line. intros H.
  repeat (apply andb_true_iff in H as [H ?]).
  repeat split; try assumption. now apply negb_true_iff.
Qed.

Lemma boundary_not_digit (a b : string) :
  first_is is_digit a = false -> at_boundary b = true ->
  first_is is_digit (a ++ b) = false.
Proof.
  intros Ha Hb. rewrite first_is_app. destruct a; simpl; [|exact Ha].
  destruct b as [|c b]; simpl in *; [reflexivity | now apply hash_not_digit].
Qed.

(** The search for a marker in well-formed lines finds the digits of the
    first line of that marker. *)
Lemma re_search_lines (m : marker) (ls : list define_line) :
  forallb wf_line ls = true ->
  re_search (literal m) (lines_text ls)
  = option_map (fun ds => {| group1 := ds |}) (value_of m ls).
Proof.
  induction ls as [|l ls IH]; intros Hwf.
  - simpl. destruct m; reflexivity.
  - simpl in Hwf. apply andb_true_iff in Hwf as [Hl Hls].
    apply wf_line_parts in Hl as (Hg1 & Hg & Hd1 & Hd & Hu & Ht).
    simpl lines_text. unfold line_text. simpl value_of.
    rewrite !append_assoc.
    destruct (marker_eqb m (name l)) eqn:E.
    + apply marker_eqb_eq in E; subst m.
      rewrite re_search_eq, match_here_value; auto.
      apply boundary_not_digit; [exact Ht | apply lines_text_boundary].
    + rewrite re_search_eq, match_here_prefix by now apply starts_with_other.
      destruct (literal_hash (name l)) as (tl & Hlit & Htl).
      rewrite Hlit. cbn [append].
      replace (tl ++ gap l ++ digits l ++ trailing l ++ lines_text ls)
        with ((tl ++ gap l ++ digits l) ++ trailing l ++ lines_text ls)
        by now rewrite !append_assoc.
      rewrite re_search_skip_no_hash.
      * rewrite re_search_skip_unrelated; auto using lines_text_boundary.
        now apply unrelated_contains.
      * rewrite !all_chars_app, Htl. simpl.
        rewrite (all_chars_impl _ _ _ space_not_hash Hg).
        now rewrite (all_chars_impl _ _ _ digit_not_hash Hd).
Qed.

Lemma parse_header_lines (leading : string) (ls : list define_line) :
  unrelated leading = true -> forallb wf_line ls = true ->
  parse_header (header_text leading ls)
  = match value_of MAJOR ls, value_of MINOR ls, value_of PATCH ls with
    | Some a, Some b, Some c => Some (a ++ "." ++ b ++ "." ++ c)
    | _, _, _ => None
    end.
Proof.
  intros Hu Hwf. unfold parse_header, header_text.
  change LIT_MAJOR with (literal MAJOR).
  change LIT_MINOR with (literal MINOR).
  change LIT_PATCH with (literal PATCH).
  rewrite !re_search_skip_unrelated
    by auto using lines_text_boundary, unrelated_contains.
  rewrite !re_search_lines by assumption.
  destruct (value_of MAJOR ls), (value_of MINOR ls), (value_of PATCH ls);
    reflexivity.
Qed.

Lemma value_of_in (ls : list define_line) (l : define_line) :
  NoDup (map name ls) -> In l ls -> value_of (name l) ls = Some (digits l).
Proof.
  induction ls as [|x ls IH]; simpl; [easy|].
  intros Hnd [-> | Hin].
  - now replace (marker_eqb (name l) (name l)) with true
      by (symmetry; now apply marker_eqb_eq).
  - inversion Hnd as [|? ? Hx Hnd']; subst.
    destruct (marker_eqb (name l) (name x)) eqn:E; [|now apply IH].
    apply marker_eqb_eq in E. exfalso. apply Hx. rewrite <- E.
    now apply in_map.
Qed.

Lemma value_of_entries (ls : list define_line) (a b c : string) (m : marker)
      (v : string) :
  Permutation (map entry ls) [(MAJOR, a); (MINOR, b); (PATCH, c)] ->
  In (m, v) [(MAJOR, a); (MINOR, b); (PATCH, c)] ->
  value_of m ls = Some v /\ exists l, In l ls /\ digits l = v.
Proof.
  intros Hp Hin.
  assert (Hnd : NoDup (map name ls)).
  { apply (Permutation_NoDup (l := [MAJOR; MINOR; PATCH])).
    - symmetry. apply (Permutation_map fst) in Hp.
      rewrite map_map in Hp. exact Hp.
    - repeat constructor; simpl; intuition discriminate. }
  apply (Permutation_in _ (Permutation_sym Hp)) in Hin.
  apply in_map_iff in Hin as (l & El & Hl). inversion El; subst.
  split; [now apply value_of_in | now exists l].
Qed.

Lemma split_dots_no_dot (s : string) :
  all_chars is_digit s = true -> split_dots s = [s].
Proof.
  induction s as [|x s IH]; simpl; [reflexivity|].
  intros H; apply andb_true_iff in H as [Hx Hs].
  now rewrite (digit_not_dot _ Hx), IH.
Qed.

Lemma split_dots_app (a r : string) :
  all_chars is_digit a = true ->
  split_dots (a ++ String "." r) = a :: split_dots r.
Proof.
  induction a as [|x a IH]; simpl; [reflexivity|].
  intros H; apply andb_true_iff in H as [Hx Ha].
  now rewrite (digit_not_dot _ Hx), IH.
Qed.

Lemma triple_of_dotted_digits (a b c : string) :
  numeric a = true -> numeric b = true -> numeric c = true ->
  triple_of_dotted (a ++ "." ++ b ++ "." ++ c)
  = Some (int_of_digits a, int_of_digits b, int_of_digits c).
Proof.
  unfold numeric. intros Ha Hb Hc.
  apply andb_true_iff in Ha as [Ha1 Ha], Hb as [Hb1 Hb], Hc as [Hc1 Hc].
  unfold triple_of_dotted. cbn [append].
  rewrite split_dots_app, split_dots_app, split_dots_no_dot by assumption.
  now rewrite Ha1, Ha, Hb1, Hb, Hc1, Hc.
Qed.

(** ** Mappings *)

Lemma lookup_split (key : string) (items : list (pyval * pyval)) (v : pyval) :
  lookup key items = Some v ->
  exists pre k post,
    items = (pre ++ (k, v) :: post)%list
    /\ key_is key k = true /\ lookup key pre = None
    /\ forall v', assign key v' items = (pre ++ (k, v') :: post)%list.
Proof.
  induction items as [|[k0 v0] items IH]; simpl; [discriminate|].
  destruct (key_is key k0) eqn:E.
  - intros [= ->]. exists [], k0, items. simpl. now rewrite E.
  - intros H. destruct (IH H) as (pre & k & post & -> & Hk & Hpre & Has).
    exists ((k0, v0) :: pre), k, post. simpl. rewrite E.
    repeat split; auto. intros v'. now rewrite Has.
Qed.

Lemma lookup_middle (key : string) (pre post : list (pyval * pyval))
      (k v : pyval) :
  key_is key k = true -> lookup key pre = None ->
  lookup key (pre ++ (k, v) :: post) = Some v.
Proof.
  intros Hk; induction pre as [|[k0 v0] pre IH]; simpl.
  - now rewrite Hk.
  - destruct (key_is key k0); [discriminate | exact IH].
Qed.

Section Runs.

Variables HEADER_PATH RECIPE_PATH : string.
Variable yaml_load : string -> res pyval.
Variable yaml_dump : pyval -> string.
Variable container_str : pyval -> string.

Local Abbreviation get_version := (get_version_from_header HEADER_PATH).
Local Abbreviation set_version := set_context_version.
Local Abbreviation str := (py_str container_str).
Local Abbreviation main_ :=
  (main HEADER_PATH RECIPE_PATH yaml_load yaml_dump container_str).
Local Abbreviation run_ :=
  (run HEADER_PATH RECIPE_PATH yaml_load yaml_dump container_str).
Local Abbreviation missing := (header_missing_message HEADER_PATH).
Local Abbreviation unparsed := (header_unparsed_message HEADER_PATH).
Local Abbreviation no_recipe := (recipe_missing_message RECIPE_PATH).
Local Abbreviation mismatch := (mismatch_message HEADER_PATH RECIPE_PATH).

Lemma get_version_eq (w : World) :
  get_version w =
  (match header_file w with
   | None => Raise (RuntimeError missing)
   | Some content =>
       match parse_header content with
       | Some version => Ok version
       | None => Raise (RuntimeError unparsed)
       end
   end, w).
Proof.
  unfold get_version_from_header, bind, try_except, read_text_header,
    raise, ret.
  destruct (header_file w) as [content|]; [|reflexivity].
  now destruct (parse_header content).
Qed.

(** The replacement at line 69 succeeds wherever line 52 did. *)
Lemma set_version_ok (doc context v : pyval) (hv : string) :
  getitem doc "context" = Ok context ->
  getitem context "version" = Ok v ->
  exists doc',
    set_version doc hv = Ok doc'
    /\ only_version_replaced hv doc doc'
    /\ exists context',
         getitem doc' "context" = Ok context'
         /\ getitem context' "version" = Ok (PStr hv).
Proof.
  intros Hc Hv. unfold set_context_version. rewrite Hc.
  destruct doc as [| | | | | |ca items]; try discriminate.
  destruct context as [| | | | | |cca citems]; try discriminate.
  simpl in Hc, Hv.
  destruct (lookup "context" items) as [c|] eqn:Lc; [|discriminate].
  injection Hc as ->.
  destruct (lookup "version" citems) as [v0|] eqn:Lv; [|discriminate].
  injection Hv as ->.
  destruct (lookup_split _ _ _ Lc) as (pre & k & post & -> & Hk & Hpre & Has).
  destruct (lookup_split _ _ _ Lv)
    as (cpre & ck & cpost & -> & Hck & Hcpre & Hcas).
  simpl. rewrite Has, Hcas. eexists. split; [reflexivity|]. split.
  - now constructor.
  - eexists. simpl. rewrite lookup_middle by assumption.
    split; [reflexivity|]. simpl. now rewrite lookup_middle.
Qed.

(** [main] read as one decision on the two files. *)
Lemma main_eq (check_only : bool) (w : World) :
  main_ check_only w =
  match header_file w with
  | None => (Raise (SystemExit 1), emit (Stderr ("Erreur : " ++ missing)) w)
  | Some content =>
  match parse_header content with
  | None => (Raise (SystemExit 1), emit (Stderr ("Erreur : " ++ unparsed)) w)
  | Some hv =>
  match recipe_file w with
  | None => (Raise (SystemExit 1), emit (Stderr no_recipe) w)
  | Some text =>
  match yaml_load text with
  | Raise (FileNotFoundError _) =>
      (Raise (SystemExit 1), emit (Stderr no_recipe) w)
  | Raise e => (Raise e, w)
  | Ok doc =>
  match getitem doc "context" with
  | Raise e => (Raise e, w)
  | Ok context =>
  match getitem context "version" with
  | Raise e => (Raise e, w)
  | Ok v =>
      if String.eqb hv (str v)
      then (Raise (SystemExit 0), emit (Stdout (synced_message hv)) w)
      else if check_only
      then (Raise (SystemExit 1), emit (Stderr (mismatch hv (str v))) w)
      else
        match set_version doc hv with
        | Raise e => (Raise e, emit (Stdout (update_message (str v) hv)) w)
        | Ok doc' =>
            (Ok tt,
             emit (Stdout done_message)
               (write_recipe (yaml_dump doc')
                  (emit (Stdout (update_message (str v) hv)) w)))
        end
  end end end end end end.
Proof.
  unfold main. unfold bind at 1. unfold try_except at 1.
  rewrite get_version_eq.
  destruct (header_file w) as [content|] eqn:Hh; [|reflexivity].
  destruct (parse_header content) as [hv|]; [|reflexivity].
  unfold bind at 1. unfold try_except, load_recipe.
  destruct (recipe_file w) as [text|] eqn:Hr; [|reflexivity].
  destruct (yaml_load text) as [doc|e]; [|now destruct e].
  unfold bind at 1, lift at 1.
  destruct (getitem doc "context") as [context|e]; [|reflexivity].
  unfold bind at 1, lift at 1.
  destruct (getitem context "version") as [v|e]; [|reflexivity].
  cbv zeta. unfold bind at 1.
  destruct (String.eqb hv (str v)); [reflexivity|].
  unfold ret. destruct check_only; [reflexivity|].
  unfold bind, print, lift, dump_recipe.
  now destruct (set_version doc hv).
Qed.

Lemma dumps_emit (ev : event) (w : World) :
  is_dump ev = false -> dumps (log (emit ev w)) = dumps (log w).
Proof.
  intros H. unfold dumps. simpl. rewrite filter_app. simpl.
  rewrite H. apply app_nil_r.
Qed.

Lemma is_check_true (argv : list string) :
  existsb (String.eqb "--check") argv = true <-> In "--check" argv.
Proof.
  rewrite existsb_exists. split.
  - intros (x & Hx & E). apply String.eqb_eq in E. now subst.
  - intros H. exists "--check". split; [exact H | apply String.eqb_refl].
Qed.


Lemma getitem_raise (obj : pyval) (key : string) (e : exn) :
  getitem obj key = Raise e ->
  e = KeyError key \/ exists msg, e = TypeError msg.
Proof.
  destruct obj; simpl; try (intros [= <-]; right; eauto).
  destruct (lookup key items); [discriminate|].
  intros [= <-]. now left.
Qed.

(** The interpreter adds a traceback to what the script did, or nothing. *)
Lemma run_eq (argv : list string) (w : World) :
  run_ argv w =
  let (r, w') := main_ (existsb (String.eqb "--check") argv) w in
  match r with
  | Ok _ | Raise (SystemExit _) => (r, w')
  | Raise e => (Raise e, emit (Traceback e) w')
  end.
Proof.
  unfold run, script.
  destruct (main_ (existsb (String.eqb "--check") argv) w) as [[[]|e] w'];
    [reflexivity | now destruct e].
Qed.

(** Every run either leaves the recipe as it was and does not finish
    normally, or finishes normally after the one write of the sync path. *)
Lemma run_untouched_or_updated (argv : list string) (w : World) :
  (recipe_file (snd (run_ argv w)) = recipe_file w
   /\ dumps (log (snd (run_ argv w))) = dumps (log w)
   /\ exists e, fst (run_ argv w) = Raise e)
  \/ (~ In "--check" argv
      /\ exists content hv text doc context v doc',
           header_file w = Some content /\ parse_header content = Some hv
           /\ recipe_file w = Some text /\ yaml_load text = Ok doc
           /\ getitem doc "context" = Ok context
           /\ getitem context "version" = Ok v
           /\ str v <> hv
           /\ set_version doc hv = Ok doc'
           /\ run_ argv w =
              (Ok tt,
               emit (Stdout done_message)
                 (write_recipe (yaml_dump doc')
                    (emit (Stdout (update_message (str v) hv)) w)))).
Proof.
  assert (untouched : forall e ev,
    is_dump ev = false ->
    recipe_file (snd (Raise (A := unit) e, emit ev w)) = recipe_file w
    /\ dumps (log (snd (Raise (A := unit) e, emit ev w))) = dumps (log w)
    /\ exists e', fst (Raise (A := unit) e, emit ev w) = Raise e').
  { intros e ev Hev. cbn [fst snd]. rewrite dumps_emit by exact Hev.
    repeat split; eauto. }
  assert (untouched0 : forall e,
    recipe_file (snd (Raise (A := unit) e, w)) = recipe_file w
    /\ dumps (log (snd (Raise (A := unit) e, w))) = dumps (log w)
    /\ exists e', fst (Raise (A := unit) e, w) = Raise e').
  { intros e. cbn [fst snd]. repeat split; eauto. }
  rewrite run_eq, main_eq.
  destruct (header_file w) as [content|] eqn:Hh; [|left; now apply untouched].
  destruct (parse_header content) as [hv|] eqn:Hp;
    [|left; now apply untouched].
  destruct (recipe_file w) as [text|] eqn:Hr; [|left; now apply untouched].
  destruct (yaml_load text) as [doc|e] eqn:Hl.
  2:{ left. destruct e; first [now apply untouched | now apply untouched0]. }
  destruct (getitem doc "context") as [context|e] eqn:Hc.
  2:{ left. destruct (getitem_raise _ _ _ Hc) as [->|[msg ->]];
      now apply untouched. }
  destruct (getitem context "version") as [v|e] eqn:Hv.
  2:{ left. destruct (getitem_raise _ _ _ Hv) as [->|[msg ->]];
      now apply untouched. }
  destruct (String.eqb hv (str v)) eqn:E; [left; now apply untouched|].
  destruct (existsb (String.eqb "--check") argv) eqn:Ec;
    [left; now apply untouched|].
  destruct (set_version_ok doc context v hv Hc Hv) as (doc' & Hs & _).
  rewrite Hs. right. split.
  - intros Hin. apply is_check_true in Hin. congruence.
  - exists content, hv, text, doc, context, v, doc'.
    repeat split; auto.
    intros <-. now rewrite String.eqb_refl in E.
Qed.

Lemma run_synced (argv : list string) (w : World) (content hv text : string)
      (doc context v : pyval) :
  header_file w = Some content -> parse_header content = Some hv ->
  recipe_file w = Some text -> yaml_load text = Ok doc ->
  getitem doc "context" = Ok context ->
  getitem context "version" = Ok v ->
  str v = hv ->
  run_ argv w = (Raise (SystemExit 0), emit (Stdout (synced_message hv)) w).
Proof.
  intros Hh Hp Hr Hl Hc Hv E.
  rewrite run_eq, main_eq, Hh, Hp, Hr, Hl, Hc, Hv, E.
  now rewrite String.eqb_refl.
Qed.

Lemma run_mismatch (argv : list string) (w : World) (content hv text : string)
      (doc context v : pyval) :
  header_file w = Some content -> parse_header content = Some hv ->
  recipe_file w = Some text -> yaml_load text = Ok doc ->
  getitem doc "context" = Ok context ->
  getitem context "version" = Ok v ->
  str v <> hv -> In "--check" argv ->
  run_ argv w = (Raise (SystemExit 1), emit (Stderr (mismatch hv (str v))) w).
Proof.
  intros Hh Hp Hr Hl Hc Hv Hne Hin. apply is_check_true in Hin.
  assert (E : String.eqb hv (str v) = false)
    by (apply String.eqb_neq; congruence).
  now rewrite run_eq, main_eq, Hh, Hp, Hr, Hl, Hc, Hv, E, Hin.
Qed.



(** C7: in either mode, when the header's dotted version equals the
    recipe's version text the run reports that the versions are
    synchronised, exits with status 0 and does not write the recipe. *)
Theorem synced_exits_zero_without_write
    (argv : list string) (w : World) (content hv text : string)
    (doc context v : pyval) :
  header_file w = Some content -> parse_header content = Some hv ->
  recipe_file w = Some text -> yaml_load text = Ok doc ->
  getitem doc "context" = Ok context ->
  getitem context "version" = Ok v ->
  str v = hv ->
  run_ argv w = (Raise (SystemExit 0), emit (Stdout (synced_message hv)) w)
  /\ exit_status (fst (run_ argv w)) = 0%Z
  /\ recipe_file (snd (run_ argv w)) = recipe_file w
  /\ dumps (log (snd (run_ argv w))) = dumps (log w).
Proof.
  intros Hh Hp Hr Hl Hc Hv E.
  rewrite (run_synced argv w content hv text doc context v) by assumption. cbn [fst snd exit_status]. now rewrite dumps_emit.
Qed.

(** C3: a run in check mode never writes the recipe, whether the versions
    match or not; when they differ the run reports the mismatch on the
    error stream and exits with status 1. *)
Theorem check_mode_never_writes (argv : list string) (w : World) :
  In "--check" argv ->
  recipe_file (snd (run_ argv w)) = recipe_file w
  /\ dumps (log (snd (run_ argv w))) = dumps (log w)
  /\ forall content hv text doc context v,
       header_file w = Some content -> parse_header content = Some hv ->
       recipe_file w = Some text -> yaml_load text = Ok doc ->
       getitem doc "context" = Ok context ->
       getitem context "version" = Ok v ->
       str v <> hv ->
       run_ argv w
       = (Raise (SystemExit 1), emit (Stderr (mismatch hv (str v))) w)
       /\ exit_status (fst (run_ argv w)) = 1%Z.
Proof.
  intros Hin.
  destruct (run_untouched_or_updated argv w) as [(Hf & Hd & _)|[Hn _]];
    [|contradiction].
  split; [exact Hf|]. split; [exact Hd|].
  intros content hv text doc context v Hh Hp Hr Hl Hc Hv Hne.
  now rewrite (run_mismatch argv w content hv text doc context v).
Qed.

Local Abbreviation read := (read_version yaml_load container_str).
Local Abbreviation stops := (stops_before_write yaml_load container_str).

Lemma read_version_ok (text : string) (rv : string) :
  read text = Ok rv ->
  exists doc context v,
    yaml_load text = Ok doc /\ getitem doc "context" = Ok context
    /\ getitem context "version" = Ok v /\ str v = rv.
Proof.
  unfold read_version.
  destruct (yaml_load text) as [doc|] eqn:Hl; [|discriminate].
  destruct (getitem doc "context") as [context|] eqn:Hc; [|discriminate].
  destruct (getitem context "version") as [v|] eqn:Hv; [|discriminate].
  intros [= <-]. now exists doc, context, v.
Qed.



(** C4 (what the script does): when the recipe loads and
    [recipe_data['context']['version']] cannot be read, line 52 raises and
    nothing catches it: the script prints nothing, the interpreter reports
    the [KeyError] (or [TypeError]) with a traceback and the exit status
    is 1; the recipe is not written. *)
Theorem missing_version_is_uncaught
    (argv : list string) (w : World) (content hv text : string) (e : exn) :
  header_file w = Some content -> parse_header content = Some hv ->
  recipe_file w = Some text ->
  (exists doc, yaml_load text = Ok doc) ->
  read text = Raise e ->
  run_ argv w = (Raise e, emit (Traceback e) w)
  /\ ((exists key, e = KeyError key) \/ (exists msg, e = TypeError msg))
  /\ exit_status (fst (run_ argv w)) = 1%Z
  /\ recipe_file (snd (run_ argv w)) = recipe_file w.
Proof.
  intros Hh Hp Hr [doc Hl] He. unfold read_version in He. rewrite Hl in He.
  assert (Hkind : (exists key, e = KeyError key) \/ (exists msg, e = TypeError msg)).
  { destruct (getitem doc "context") as [context|e'] eqn:Hc.
    - destruct (getitem context "version") as [v|e''] eqn:Hv;
        [discriminate|]. injection He as <-.
      destruct (getitem_raise _ _ _ Hv) as [->|[msg ->]]; eauto.
    - injection He as <-.
      destruct (getitem_raise _ _ _ Hc) as [->|[msg ->]]; eauto. }
  assert (Hrun : run_ argv w = (Raise e, emit (Traceback e) w)).
  { rewrite run_eq, main_eq, Hh, Hp, Hr, Hl.
    destruct (getitem doc "context") as [context|e'] eqn:Hc.
    - destruct (getitem context "version") as [v|e''] eqn:Hv;
        [discriminate|]. injection He as <-.
      destruct Hkind as [[key ->]|[msg ->]]; reflexivity.
    - injection He as <-.
      destruct Hkind as [[key ->]|[msg ->]]; reflexivity. }
  rewrite Hrun. cbn [fst snd].
  repeat split; auto.
  destruct Hkind as [[key ->]|[msg ->]]; reflexivity.
Qed.





(** *** What the search finds, said without the search *)

Lemma match_here_defines (lit s : string) (m : Match) :
  match_here lit s = Some m ->
  exists ws d post,
    s = lit ++ ws ++ String d post
    /\ nonempty ws = true /\ all_chars is_space ws = true
    /\ is_digit d = true.
Proof.
  unfold match_here.
  destruct (starts_with lit s) eqn:Hsw; [|discriminate].
  apply starts_with_inv in Hsw.
  destruct (span is_space (drop (String.length lit) s)) as [ws r] eqn:Hws.
  apply span_spec in Hws as (Er & Hws & _).
  destruct ws as [|c ws]; [discriminate|].
  destruct (span is_digit r) as [ds r2] eqn:Hds.
  apply span_spec in Hds as (Er2 & Hds & _).
  destruct ds as [|d ds]; [discriminate|]. intros _.
  exists (String c ws), d, (ds ++ r2).
  simpl in Hds. apply andb_true_iff in Hds as [Hd _].
  repeat split; auto.
  rewrite Hsw at 1. rewrite Er, Er2. reflexivity.
Qed.

Lemma re_search_sound (lit s : string) (m : Match) :
  re_search lit s = Some m -> defines lit s.
Proof.
  induction s as [|c s IH]; rewrite re_search_eq.
  - destruct (match_here lit "") eqn:E; [|discriminate]. intros _.
    destruct (match_here_defines _ _ _ E) as (ws & d & post & H).
    now exists "", ws, d, post.
  - destruct (match_here lit (String c s)) eqn:E.
    + intros _.
      destruct (match_here_defines _ _ _ E) as (ws & d & post & H).
      now exists "", ws, d, post.
    + intros H. destruct (IH H) as (pre & ws & d & post & -> & Hrest).
      now exists (String c pre), ws, d, post.
Qed.

Lemma match_here_complete (lit ws post : string) (d : ascii) :
  nonempty ws = true -> all_chars is_space ws = true -> is_digit d = true ->
  exists m, match_here lit (lit ++ ws ++ String d post) = Some m.
Proof.
  intros Hne Hws Hd. unfold match_here.
  rewrite starts_with_app, drop_app.
  rewrite (span_app is_space ws (String d post) Hws)
    by (simpl; now apply digit_not_space).
  destruct ws; [discriminate|].
  simpl. rewrite Hd. destruct (span is_digit post). eauto.
Qed.

Lemma re_search_complete (lit s : string) :
  defines lit s -> exists m, re_search lit s = Some m.
Proof.
  intros (pre & ws & d & post & -> & Hne & Hws & Hd).
  induction pre as [|c pre IH]; rewrite re_search_eq.
  - destruct (match_here_complete lit ws post d Hne Hws Hd) as [m Hm].
    simpl append. rewrite Hm. eauto.
  - destruct (match_here lit (String c pre ++ lit ++ ws ++ String d post));
      [eauto | exact IH].
Qed.

Lemma re_search_none (lit s : string) :
  re_search lit s = None <-> ~ defines lit s.
Proof.
  split.
  - intros H Hd. apply re_search_complete in Hd as [m Hm]. congruence.
  - intros H. destruct (re_search lit s) eqn:E; [|reflexivity].
    exfalso. apply H. eapply re_search_sound; eauto.
Qed.



Lemma parse_header_none (content : string) :
  parse_header content = None
  <-> exists m, ~ defines (literal m) content.
Proof.
  unfold parse_header. split.
  - destruct (re_search LIT_MAJOR content) eqn:E1.
    + destruct (re_search LIT_MINOR content) eqn:E2.
      * destruct (re_search LIT_PATCH content) eqn:E3; [discriminate|].
        intros _. exists PATCH. now apply re_search_none.
      * intros _. exists MINOR. now apply re_search_none.
    + intros _. exists MAJOR. now apply re_search_none.
  - intros [m Hm]. apply re_search_none in Hm.
    destruct m; simpl in Hm; rewrite Hm;
      repeat match goal with
             | |- context [match ?x with _ => _ end] => destruct x
             end; reflexivity.
Qed.


(** C2: for a header made of unrelated text and of one line for each of
    the three markers, in any order, each marker followed by whitespace
    and by digits, [get_version_from_header] returns the dotted text of
    the three runs of digits, major, minor, patch: the triple of integers
    it denotes is the three parsed integers, whatever the order of the
    lines, the whitespace and the unrelated text. *)
Theorem header_version_of_lines
    (w : World) (leading : string) (ls : list define_line)
    (major minor patch : string) :
  header_file w = Some (header_text leading ls) ->
  unrelated leading = true -> forallb wf_line ls = true ->
  Permutation (map entry ls)
              [(MAJOR, major); (MINOR, minor); (PATCH, patch)] ->
  get_version w = (Ok (major ++ "." ++ minor ++ "." ++ patch), w)
  /\ triple_of_dotted (major ++ "." ++ minor ++ "." ++ patch)
     = Some (int_of_digits major, int_of_digits minor, int_of_digits patch).
Proof.
  intros Hh Hu Hwf Hperm.
  assert (Hval : forall m v,
    In (m, v) [(MAJOR, major); (MINOR, minor); (PATCH, patch)] ->
    value_of m ls = Some v /\ numeric v = true).
  { intros m v Hin.
    destruct (value_of_entries ls _ _ _ m v Hperm Hin) as (Hv & l & Hl & <-).
    split; [exact Hv|].
    rewrite forallb_forall in Hwf.
    destruct (wf_line_parts l (Hwf l Hl)) as (_ & _ & Hd1 & Hd & _).
    unfold numeric. now rewrite Hd1, Hd. }
  destruct (Hval MAJOR major) as [Ha Na]; [simpl; auto|].
  destruct (Hval MINOR minor) as [Hb Nb]; [simpl; auto|].
  destruct (Hval PATCH patch) as [Hc Nc]; [simpl; auto|].
  split.
  - rewrite get_version_eq, Hh, parse_header_lines by assumption.
    now rewrite Ha, Hb, Hc.
  - now apply triple_of_dotted_digits.
Qed.

End Runs.

(** ** The properties on concrete runs *)

Lemma not_check_sync : ~ In "--check" Scenario.sync.
Proof. simpl. intuition discriminate. Defined.


Lemma in_check : In "--check" Scenario.check.
Proof. simpl. auto. Defined.


Lemma synced_exits_zero_without_write_witness :
  exit_status (fst (Demo.run Scenario.sync Scenario.synced)) = 0%Z
  /\ recipe_file (snd (Demo.run Scenario.sync Scenario.synced))
     = recipe_file Scenario.synced
  /\ dumps (log (snd (Demo.run Scenario.sync Scenario.synced))) = [].
Proof.
  refine (proj2 (synced_exits_zero_without_write Demo.HEADER_PATH
            Demo.RECIPE_PATH MiniYaml.load MiniYaml.dump MiniYaml.container_str
            Scenario.sync Scenario.synced _ "1.2.3" _ _ _ (PStr "1.2.3")
            eq_refl _ eq_refl _ _ _ _));
    vm_compute; reflexivity.
Defined.

Lemma check_mode_never_writes_witness :
  recipe_file (snd (Demo.run Scenario.check Scenario.drifted))
  = recipe_file Scenario.drifted
  /\ exit_status (fst (Demo.run Scenario.check Scenario.drifted)) = 1%Z.
Proof.
  destruct (check_mode_never_writes Demo.HEADER_PATH Demo.RECIPE_PATH
              MiniYaml.load MiniYaml.dump MiniYaml.container_str
              Scenario.check Scenario.drifted in_check) as (Hfile & _ & Hrun).
  split; [exact Hfile|].
  refine (proj2 (Hrun _ "1.3.0" _ _ _ (PStr "1.2.3")
                   eq_refl _ eq_refl _ _ _ _));
    try (vm_compute; reflexivity).
  vm_compute. discriminate.
Defined.


Lemma missing_version_is_uncaught_witness :
  Demo.run Scenario.sync Scenario.no_version
  = (Raise (KeyError "version"),
     emit (Traceback (KeyError "version")) Scenario.no_version)
  /\ exit_status (fst (Demo.run Scenario.sync Scenario.no_version)) = 1%Z.
Proof.
  destruct (missing_version_is_uncaught Demo.HEADER_PATH Demo.RECIPE_PATH
              MiniYaml.load MiniYaml.dump MiniYaml.container_str
              Scenario.sync Scenario.no_version _ "1.3.0" _
              (KeyError "version") eq_refl eq_refl eq_refl
              (ex_intro _ _ eq_refl) eq_refl) as (Hrun & _ & Hexit & _).
  split; [exact Hrun | exact Hexit].
Defined.





Lemma header_version_of_lines_witness :
  get_version_from_header Demo.HEADER_PATH Scenario.shuffled_world
  = (Ok "12.3.0", Scenario.shuffled_world)
  /\ triple_of_dotted "12.3.0" = Some (12%N, 3%N, 0%N).
Proof.
  refine (header_version_of_lines Demo.HEADER_PATH Scenario.shuffled_world
            ("#pragma once" ++ nl) Scenario.shuffled "12" "3" "0"
            eq_refl eq_refl eq_refl _).
  exact (Permutation_sym
           (Permutation_cons_append [(MINOR, "3"); (PATCH, "0")] (MAJOR, "12"))).
Defined.



(** * Further properties of the script *)

(** ** What [get_version_from_header] returns *)

Lemma length_append (a b : string) :
  String.length (a ++ b) = String.length a + String.length b.
Proof. induction a as [|x a IH]; simpl; [reflexivity | now rewrite IH]. Qed.

Lemma match_here_numeric (lit s : string) (m : Match) :
  match_here lit s = Some m -> numeric (group1 m) = true.
Proof.
  unfold match_here. destruct (starts_with lit s); [|discriminate].
  destruct (span is_space (drop (String.length lit) s)) as [ws r].
  destruct ws; [discriminate|].
  destruct (span is_digit r) as [ds r2] eqn:Hds.
  apply span_spec in Hds as (_ & Hds & _).
  destruct ds as [|d ds]; [discriminate|].
  intros [= <-]. simpl group1. unfold numeric. now rewrite Hds.
Qed.

Lemma re_search_numeric (lit s : string) (m : Match) :
  re_search lit s = Some m -> numeric (group1 m) = true.
Proof.
  induction s as [|c s IH]; rewrite re_search_eq.
  - destruct (match_here lit "") eqn:E; [|discriminate].
    intros [= <-]. now apply match_here_numeric in E.
  - destruct (match_here lit (String c s)) eqn:E.
    + intros [= <-]. now apply match_here_numeric in E.
    + exact IH.
Qed.

Lemma parse_header_some (content v : string) :
  parse_header content = Some v ->
  exists a b c,
    re_search LIT_MAJOR content = Some {| group1 := a |}
    /\ re_search LIT_MINOR content = Some {| group1 := b |}
    /\ re_search LIT_PATCH content = Some {| group1 := c |}
    /\ v = a ++ "." ++ b ++ "." ++ c
    /\ numeric a = true /\ numeric b = true /\ numeric c = true.
Proof.
  unfold parse_header.
  destruct (re_search LIT_MAJOR content) as [[a]|] eqn:Ea; [|discriminate].
  destruct (re_search LIT_MINOR content) as [[b]|] eqn:Eb; [|discriminate].
  destruct (re_search LIT_PATCH content) as [[c]|] eqn:Ec; [|discriminate].
  intros [= <-]. exists a, b, c.
  apply re_search_numeric in Ea, Eb, Ec. simpl in *. now repeat split.
Qed.

Lemma numeric_digits (s : string) :
  numeric s = true -> all_chars is_digit s = true.
Proof. unfold numeric. intros H. now apply andb_true_iff in H. Qed.

Lemma split_dots_dotted (a b c : string) :
  numeric a = true -> numeric b = true -> numeric c = true ->
  split_dots (a ++ "." ++ b ++ "." ++ c) = [a; b; c].
Proof.
  intros Ha Hb Hc. cbn [append].
  now rewrite !split_dots_app, split_dots_no_dot by now apply numeric_digits.
Qed.

Lemma value_of_app (m : marker) (ls more : list define_line) (v : string) :
  value_of m ls = Some v -> value_of m (ls ++ more) = Some v.
Proof.
  induction ls as [|l ls IH]; simpl; [discriminate|].
  now destruct (marker_eqb m (name l)).
Qed.

Lemma defines_length (lit s : string) :
  defines lit s -> String.length lit + 2 <= String.length s.
Proof.
  intros (pre & ws & d & post & -> & Hne & _).
  rewrite !length_append. destruct ws; [discriminate|]. simpl. lia.
Qed.

Section Extraction.

Variable HEADER_PATH : string.

Local Abbreviation get_version := (get_version_from_header HEADER_PATH).
Local Abbreviation unparsed := (header_unparsed_message HEADER_PATH).

(** X1: whatever the header holds, a version that is returned is three
    non-empty runs of decimal digits joined by two dots, so it always reads
    back as a triple of integers. *)
Theorem extracted_version_is_three_digit_runs (w : World) (v : string) :
  fst (get_version w) = Ok v ->
  exists a b c,
    v = a ++ "." ++ b ++ "." ++ c
    /\ numeric a = true /\ numeric b = true /\ numeric c = true
    /\ split_dots v = [a; b; c]
    /\ triple_of_dotted v
       = Some (int_of_digits a, int_of_digits b, int_of_digits c).
Proof.
  rewrite get_version_eq. cbn [fst].
  destruct (header_file w) as [content|]; [|discriminate].
  destruct (parse_header content) as [v'|] eqn:Hp; [|discriminate].
  intros [= ->].
  destruct (parse_header_some _ _ Hp) as (a & b & c & _ & _ & _ & -> & Ha & Hb & Hc).
  exists a, b, c. repeat split; auto.
  - now apply split_dots_dotted.
  - now apply triple_of_dotted_digits.
Qed.

(** X2: the extraction returns a version exactly when each of the three
    markers is, somewhere in the header, followed by whitespace and by a
    decimal digit. *)
Theorem extraction_succeeds_iff_all_defined (w : World) (content : string) :
  header_file w = Some content ->
  ((exists v, get_version w = (Ok v, w))
   <-> forall m, defines (literal m) content).
Proof.
  intros Hh. rewrite get_version_eq, Hh. split.
  - intros [v Hv]. destruct (parse_header content) as [v'|] eqn:Hp;
      [|discriminate].
    destruct (parse_header_some _ _ Hp) as (a & b & c & Ea & Eb & Ec & _).
    intros []; eapply re_search_sound; eauto.
  - intros Hd.
    destruct (parse_header content) as [v|] eqn:Hp; [now exists v|].
    exfalso. apply parse_header_none in Hp as [m Hm]. now apply Hm.
Qed.

(** X3: once each marker has a line, further marker lines change nothing:
    the first definition of a marker is the one that counts. *)
Theorem later_definitions_are_ignored
    (leading : string) (ls more : list define_line) :
  unrelated leading = true ->
  forallb wf_line ls = true -> forallb wf_line more = true ->
  (forall m, value_of m ls <> None) ->
  parse_header (header_text leading (ls ++ more))
  = parse_header (header_text leading ls)
  /\ parse_header (header_text leading ls) <> None.
Proof.
  intros Hu Hls Hmore Hall.
  rewrite !parse_header_lines by (try rewrite forallb_app, Hls; assumption).
  destruct (value_of MAJOR ls) as [a|] eqn:Ea; [|now destruct (Hall MAJOR)].
  destruct (value_of MINOR ls) as [b|] eqn:Eb; [|now destruct (Hall MINOR)].
  destruct (value_of PATCH ls) as [c|] eqn:Ec; [|now destruct (Hall PATCH)].
  rewrite (value_of_app _ _ more _ Ea), (value_of_app _ _ more _ Eb),
    (value_of_app _ _ more _ Ec).
  split; [reflexivity | discriminate].
Qed.

(** X4: a header shorter than a marker, one whitespace and one digit (the
    empty header included) has no version: the extraction raises the
    "Impossible d'analyser" error. *)
Theorem short_header_has_no_version (w : World) (content : string) :
  header_file w = Some content ->
  String.length content < shortest_definition ->
  get_version w = (Raise (RuntimeError unparsed), w).
Proof.
  intros Hh Hlen. rewrite get_version_eq, Hh.
  replace (parse_header content) with (@None string); [reflexivity|].
  symmetry. apply parse_header_none. exists MAJOR. intros Hd.
  apply defines_length in Hd. unfold shortest_definition in Hlen.
  simpl literal in Hd. lia.
Qed.

(** X5: two headers give the same version only when each marker is given
    the same digits, character for character, in both: the dotted text
    keeps the three runs of digits apart. *)
Theorem same_version_same_digits (content content' v : string) :
  parse_header content = Some v -> parse_header content' = Some v ->
  forall m, re_search (literal m) content = re_search (literal m) content'.
Proof.
  intros H H'.
  destruct (parse_header_some _ _ H)
    as (a & b & c & Ea & Eb & Ec & Ev & Ha & Hb & Hc).
  destruct (parse_header_some _ _ H')
    as (a' & b' & c' & Ea' & Eb' & Ec' & Ev' & Ha' & Hb' & Hc').
  assert (E : [a; b; c] = [a'; b'; c']).
  { rewrite <- (split_dots_dotted a b c), <- (split_dots_dotted a' b' c')
      by assumption. now rewrite <- Ev, <- Ev'. }
  injection E as -> -> ->.
  intros []; simpl; congruence.
Qed.

End Extraction.

(** ** Line 69: the assignment to [context.version] *)



Lemma lookup_assign_same (key : string) (v : pyval)
      (items : list (pyval * pyval)) :
  lookup key (assign key v items) = Some v.
Proof.
  induction items as [|[k0 v0] items IH]; simpl.
  - now rewrite String.eqb_refl.
  - destruct (key_is key k0) eqn:E; simpl; now rewrite E.
Qed.


Lemma assign_assign (key : string) (v v' : pyval)
      (items : list (pyval * pyval)) :
  assign key v' (assign key v items) = assign key v' items.
Proof.
  induction items as [|[k0 v0] items IH]; simpl.
  - now rewrite String.eqb_refl.
  - destruct (key_is key k0) eqn:E; simpl; rewrite E; [reflexivity|].
    now rewrite IH.
Qed.

Lemma set_version_shape (doc doc' : pyval) (hv : string) :
  set_context_version doc hv = Ok doc' ->
  exists ca items cca citems,
    doc = PMap ca items
    /\ lookup "context" items = Some (PMap cca citems)
    /\ doc' = PMap ca (assign "context"
                         (PMap cca (assign "version" (PStr hv) citems)) items).
Proof.
  unfold set_context_version.
  destruct doc as [| | | | | |ca items]; try discriminate. simpl.
  destruct (lookup "context" items) as [context|] eqn:Lc; [|discriminate].
  destruct context as [| | | | | |cca citems]; try discriminate. simpl.
  intros [= <-]. now exists ca, items, cca, citems.
Qed.


(** X7: assigning a version and then another leaves the recipe that
    assigning the second alone gives; assigning the same version twice is
    assigning it once. *)
Theorem set_version_last_write_wins (doc d1 : pyval) (hv1 hv2 : string) :
  set_context_version doc hv1 = Ok d1 ->
  set_context_version d1 hv2 = set_context_version doc hv2
  /\ set_context_version d1 hv1 = Ok d1.
Proof.
  intros H.
  destruct (set_version_shape _ _ _ H)
    as (ca & items & cca & citems & -> & Lc & ->).
  unfold set_context_version. simpl.
  rewrite Lc, !lookup_assign_same. simpl.
  now rewrite !assign_assign.
Qed.

(** ** Whole runs *)

Lemma uint_no_dot (d : Decimal.uint) :
  all_chars no_dot (NilEmpty.string_of_uint d) = true.
Proof. induction d; simpl; auto. Qed.

Lemma int_no_dot (d : Decimal.signed_int) :
  all_chars no_dot (NilZero.string_of_int d) = true.
Proof.
  destruct d as [u|u]; simpl; destruct u; simpl; auto using uint_no_dot;
    apply (uint_no_dot u).
Qed.

Lemma dotted_has_dot (a r : string) :
  all_chars no_dot (a ++ String "." r) = false.
Proof.
  induction a as [|x a IH]; simpl; [reflexivity|].
  rewrite IH. apply andb_false_r.
Qed.

Section MoreRuns.

Variables HEADER_PATH RECIPE_PATH : string.
Variable yaml_load : string -> res pyval.
Variable yaml_dump : pyval -> string.
Variable container_str : pyval -> string.

Local Abbreviation str := (py_str container_str).
Local Abbreviation main_ :=
  (main HEADER_PATH RECIPE_PATH yaml_load yaml_dump container_str).
Local Abbreviation run_ :=
  (run HEADER_PATH RECIPE_PATH yaml_load yaml_dump container_str).
Local Abbreviation read := (read_version yaml_load container_str).
Local Abbreviation mismatch := (mismatch_message HEADER_PATH RECIPE_PATH).

Lemma plain_scalar_no_dot (v : pyval) :
  is_plain_scalar v = true -> all_chars no_dot (str v) = true.
Proof.
  destruct v as [|[]|z| | | |]; simpl; try discriminate; try reflexivity.
  intros _. apply int_no_dot.
Qed.

(** X8: when the header gives a version and the recipe file is missing, the
    run says so on the error stream, naming the recipe path, and exits with
    status 1. *)
Theorem missing_recipe_is_reported
    (argv : list string) (w : World) (content hv : string) :
  header_file w = Some content -> parse_header content = Some hv ->
  recipe_file w = None ->
  run_ argv w
  = (Raise (SystemExit 1),
     emit (Stderr ("Erreur : Fichier recette introuvable " ++ a_grave
                   ++ " : " ++ RECIPE_PATH)) w)
  /\ exit_status (fst (run_ argv w)) = 1%Z.
Proof.
  intros Hh Hp Hr.
  assert (H : run_ argv w
              = (Raise (SystemExit 1),
                 emit (Stderr (recipe_missing_message RECIPE_PATH)) w))
    by now rewrite run_eq, main_eq, Hh, Hp, Hr.
  rewrite H. now split.
Qed.

(** X9: the [try] around [yaml.load] catches [FileNotFoundError] only: any
    other exception of the loader leaves the script uncaught; the
    interpreter reports it with a traceback, the exit status is 1 and the
    recipe is not written. *)
Theorem load_error_is_uncaught
    (argv : list string) (w : World) (content hv text : string) (e : exn) :
  header_file w = Some content -> parse_header content = Some hv ->
  recipe_file w = Some text -> yaml_load text = Raise e ->
  (forall path, e <> FileNotFoundError path) ->
  (forall code, e <> SystemExit code) ->
  run_ argv w = (Raise e, emit (Traceback e) w)
  /\ exit_status (fst (run_ argv w)) = 1%Z
  /\ recipe_file (snd (run_ argv w)) = recipe_file w.
Proof.
  intros Hh Hp Hr Hl Hf Hs.
  assert (H : run_ argv w = (Raise e, emit (Traceback e) w)).
  { rewrite run_eq, main_eq, Hh, Hp, Hr, Hl.
    destruct e; try reflexivity; [now destruct (Hf path) | now destruct (Hs code)]. }
  rewrite H. cbn [fst snd]. repeat split.
  destruct e; try reflexivity. now destruct (Hs code).
Qed.

(** X10: a recipe that loads as something else than a mapping (an empty
    file, a list, a scalar), or whose [context] is not a mapping, makes
    line 52 raise [TypeError], which nothing catches. *)
Theorem non_mapping_recipe_is_type_error
    (argv : list string) (w : World) (content hv text : string)
    (doc : pyval) :
  header_file w = Some content -> parse_header content = Some hv ->
  recipe_file w = Some text -> yaml_load text = Ok doc ->
  (is_mapping doc = false
   \/ exists context,
        getitem doc "context" = Ok context /\ is_mapping context = false) ->
  exists msg,
    run_ argv w = (Raise (TypeError msg), emit (Traceback (TypeError msg)) w)
    /\ exit_status (fst (run_ argv w)) = 1%Z.
Proof.
  intros Hh Hp Hr Hl H.
  assert (Hraise : exists msg,
    read text = Raise (TypeError msg)
    /\ (getitem doc "context" = Raise (TypeError msg)
        \/ exists context, getitem doc "context" = Ok context
             /\ getitem context "version" = Raise (TypeError msg))).
  { unfold read_version. rewrite Hl. destruct H as [H | (context & Hc & H)].
    - destruct doc; try discriminate; simpl; eauto.
    - rewrite Hc. destruct context; try discriminate; simpl; eauto 6. }
  destruct Hraise as (msg & _ & Hcase). exists msg.
  assert (Hrun : run_ argv w
                 = (Raise (TypeError msg), emit (Traceback (TypeError msg)) w)).
  { rewrite run_eq, main_eq, Hh, Hp, Hr, Hl.
    destruct Hcase as [Hc | (context & Hc & Hv)]; rewrite Hc;
      [reflexivity | now rewrite Hv]. }
  rewrite Hrun. now split.
Qed.

(** X11: a version that the loader gives as null, as a boolean or as an
    integer never equals a header version, which has two dots: a check run
    on such a recipe always reports a mismatch and exits with status 1. *)
Theorem plain_scalar_version_is_a_mismatch
    (argv : list string) (w : World) (content hv text : string)
    (doc context v : pyval) :
  header_file w = Some content -> parse_header content = Some hv ->
  recipe_file w = Some text -> yaml_load text = Ok doc ->
  getitem doc "context" = Ok context ->
  getitem context "version" = Ok v ->
  is_plain_scalar v = true ->
  str v <> hv
  /\ (In "--check" argv ->
      run_ argv w
      = (Raise (SystemExit 1), emit (Stderr (mismatch hv (str v))) w)).
Proof.
  intros Hh Hp Hr Hl Hc Hv Hs.
  assert (Hne : str v <> hv).
  { intros E. apply plain_scalar_no_dot in Hs. rewrite E in Hs.
    destruct (parse_header_some _ _ Hp) as (a & b & c & _ & _ & _ & -> & _).
    cbn [append] in Hs. rewrite dotted_has_dot in Hs. discriminate. }
  split; [exact Hne|]. intros Hin.
  now apply (run_mismatch HEADER_PATH RECIPE_PATH yaml_load yaml_dump
               container_str argv w content hv text doc context v).
Qed.




(** X14: whenever the sync run updates the recipe, the check run on the
    same files reports a mismatch between the header's version and the
    version read from the recipe, and exits with status 1. *)
Theorem check_reports_what_sync_updates
    (argv_sync argv_check : list string) (w : World) :
  ~ In "--check" argv_sync -> In "--check" argv_check ->
  fst (run_ argv_sync w) = Ok tt ->
  exists content hv text rv,
    header_file w = Some content /\ parse_header content = Some hv
    /\ recipe_file w = Some text /\ read text = Ok rv /\ rv <> hv
    /\ run_ argv_check w
       = (Raise (SystemExit 1), emit (Stderr (mismatch hv rv)) w).
Proof.
  intros Hn Hin Hok.
  destruct (run_untouched_or_updated HEADER_PATH RECIPE_PATH yaml_load
              yaml_dump container_str argv_sync w)
    as [(_ & _ & e & He)
       |(_ & content & hv & text & doc & context & v & doc'
         & Hh & Hp & Hr & Hl & Hc & Hv & Hne & _)]; [congruence|].
  exists content, hv, text, (str v). repeat split; auto.
  - unfold read_version. now rewrite Hl, Hc, Hv.
  - now apply (run_mismatch HEADER_PATH RECIPE_PATH yaml_load yaml_dump
                 container_str argv_check w content hv text doc context v).
Qed.

(** X15: after a sync run that updated the recipe, a check run on the files
    it left finds the versions synchronised and exits with status 0.  The
    library is taken to read its own dump of the updated recipe back. *)
Theorem check_passes_after_sync
    (argv_sync argv_check : list string) (w : World) :
  ~ In "--check" argv_sync ->
  (forall content hv text doc doc',
     header_file w = Some content -> parse_header content = Some hv ->
     recipe_file w = Some text -> yaml_load text = Ok doc ->
     set_context_version doc hv = Ok doc' ->
     yaml_load (yaml_dump doc') = Ok doc') ->
  fst (run_ argv_sync w) = Ok tt ->
  exists hv,
    run_ argv_check (snd (run_ argv_sync w))
    = (Raise (SystemExit 0),
       emit (Stdout (synced_message hv)) (snd (run_ argv_sync w)))
    /\ exit_status (fst (run_ argv_check (snd (run_ argv_sync w)))) = 0%Z
    /\ recipe_file (snd (run_ argv_check (snd (run_ argv_sync w))))
       = recipe_file (snd (run_ argv_sync w)).
Proof.
  intros Hn Hrt Hok.
  destruct (run_untouched_or_updated HEADER_PATH RECIPE_PATH yaml_load
              yaml_dump container_str argv_sync w)
    as [(_ & _ & e & He)
       |(_ & content & hv & text & doc & context & v & doc'
         & Hh & Hp & Hr & Hl & Hc & Hv & Hne & Hs & Hrun)]; [congruence|].
  destruct (set_version_ok doc context v hv Hc Hv)
    as (d & Hs' & _ & context' & Hc' & Hv').
  assert (d = doc') by congruence; subst d.
  pose proof (Hrt content hv text doc doc' Hh Hp Hr Hl Hs) as Hback.
  rewrite Hrun. cbn [snd]. exists hv.
  set (w1 := emit (Stdout done_message)
               (write_recipe (yaml_dump doc')
                  (emit (Stdout (update_message (str v) hv)) w))).
  assert (Hrun2 : run_ argv_check w1
                  = (Raise (SystemExit 0), emit (Stdout (synced_message hv)) w1)).
  { apply (run_synced HEADER_PATH RECIPE_PATH yaml_load yaml_dump
             container_str argv_check w1 content hv (yaml_dump doc') doc'
             context' (PStr hv)); auto. }
  rewrite Hrun2. now repeat split.
Qed.


End MoreRuns.

(** ** The further properties on concrete runs *)

Lemma extracted_version_is_three_digit_runs_witness :
  exists a b c,
    "1.3.0" = a ++ "." ++ b ++ "." ++ c
    /\ numeric a = true /\ numeric b = true /\ numeric c = true
    /\ split_dots "1.3.0" = [a; b; c]
    /\ triple_of_dotted "1.3.0"
       = Some (int_of_digits a, int_of_digits b, int_of_digits c).
Proof.
  exact (extracted_version_is_three_digit_runs Demo.HEADER_PATH
           Scenario.drifted "1.3.0" eq_refl).
Defined.

Lemma extraction_succeeds_iff_all_defined_witness :
  (exists v,
     get_version_from_header Demo.HEADER_PATH Scenario.no_patch
     = (Ok v, Scenario.no_patch))
  <-> forall m,
        defines (literal m)
          ("#define XEUS_OCAML_VERSION_MAJOR 1" ++ nl ++
           "#define XEUS_OCAML_VERSION_MINOR 3" ++ nl).
Proof.
  exact (extraction_succeeds_iff_all_defined Demo.HEADER_PATH
           Scenario.no_patch _ eq_refl).
Defined.

Lemma later_definitions_are_ignored_witness :
  parse_header (header_text ("#pragma once" ++ nl) (Edge.once ++ Edge.again))
  = parse_header (header_text ("#pragma once" ++ nl) Edge.once)
  /\ parse_header (header_text ("#pragma once" ++ nl) Edge.once) <> None.
Proof.
  refine (later_definitions_are_ignored ("#pragma once" ++ nl)
            Edge.once Edge.again eq_refl eq_refl eq_refl _).
  intros []; discriminate.
Defined.

Lemma short_header_has_no_version_witness :
  get_version_from_header Demo.HEADER_PATH Edge.empty_header
  = (Raise (RuntimeError (header_unparsed_message Demo.HEADER_PATH)),
     Edge.empty_header).
Proof.
  refine (short_header_has_no_version Demo.HEADER_PATH Edge.empty_header
            EmptyString eq_refl _).
  unfold shortest_definition. simpl. lia.
Defined.

Lemma same_version_same_digits_witness :
  re_search (literal MAJOR) (Demo.header "1" "3" "0")
  = re_search (literal MAJOR) (header_text ("// generated" ++ nl) Edge.once)
  /\ re_search (literal PATCH) (Demo.header "1" "3" "0")
     = re_search (literal PATCH) (header_text ("// generated" ++ nl) Edge.once).
Proof.
  split;
    apply (same_version_same_digits (Demo.header "1" "3" "0")
             (header_text ("// generated" ++ nl) Edge.once) "1.3.0"
             eq_refl eq_refl).
Defined.


Lemma set_version_last_write_wins_witness :
  set_context_version
    (PMap "" [(PStr "context",
               PMap "" [(PStr "version", PStr "1.3.0");
                        (PStr "name", PStr "xeus-ocaml")]);
              (PStr "build", PInt 5)]) "2.0.0"
  = set_context_version Edge.loaded "2.0.0"
  /\ set_context_version
       (PMap "" [(PStr "context",
                  PMap "" [(PStr "version", PStr "1.3.0");
                           (PStr "name", PStr "xeus-ocaml")]);
                 (PStr "build", PInt 5)]) "1.3.0"
     = Ok (PMap "" [(PStr "context",
                     PMap "" [(PStr "version", PStr "1.3.0");
                              (PStr "name", PStr "xeus-ocaml")]);
                    (PStr "build", PInt 5)]).
Proof.
  exact (set_version_last_write_wins Edge.loaded _ "1.3.0" "2.0.0" eq_refl).
Defined.

Lemma missing_recipe_is_reported_witness :
  Demo.run Scenario.sync Edge.no_recipe
  = (Raise (SystemExit 1),
     emit (Stderr ("Erreur : Fichier recette introuvable " ++ a_grave
                   ++ " : " ++ Demo.RECIPE_PATH)) Edge.no_recipe)
  /\ exit_status (fst (Demo.run Scenario.sync Edge.no_recipe)) = 1%Z.
Proof.
  exact (missing_recipe_is_reported Demo.HEADER_PATH Demo.RECIPE_PATH
           MiniYaml.load MiniYaml.dump MiniYaml.container_str Scenario.sync
           Edge.no_recipe _ "1.3.0" eq_refl eq_refl eq_refl).
Defined.

Lemma load_error_is_uncaught_witness :
  Demo.run Scenario.sync Edge.broken_recipe
  = (Raise MiniYaml.outside, emit (Traceback MiniYaml.outside) Edge.broken_recipe)
  /\ exit_status (fst (Demo.run Scenario.sync Edge.broken_recipe)) = 1%Z
  /\ recipe_file (snd (Demo.run Scenario.sync Edge.broken_recipe))
     = recipe_file Edge.broken_recipe.
Proof.
  refine (load_error_is_uncaught Demo.HEADER_PATH Demo.RECIPE_PATH
            MiniYaml.load MiniYaml.dump MiniYaml.container_str Scenario.sync
            Edge.broken_recipe _ "1.3.0" _ MiniYaml.outside
            eq_refl eq_refl eq_refl eq_refl _ _);
    intros x; discriminate.
Defined.

Lemma non_mapping_recipe_is_type_error_witness :
  exists msg,
    Demo.run Scenario.sync Edge.flat_context
    = (Raise (TypeError msg), emit (Traceback (TypeError msg)) Edge.flat_context)
    /\ exit_status (fst (Demo.run Scenario.sync Edge.flat_context)) = 1%Z.
Proof.
  refine (non_mapping_recipe_is_type_error Demo.HEADER_PATH Demo.RECIPE_PATH
            MiniYaml.load MiniYaml.dump MiniYaml.container_str Scenario.sync
            Edge.flat_context _ "1.3.0" _ _ eq_refl eq_refl eq_refl eq_refl
            (or_intror (ex_intro _ (PStr "none") (conj eq_refl eq_refl)))).
Defined.

Lemma plain_scalar_version_is_a_mismatch_witness :
  "13" <> "1.3.0"
  /\ (In "--check" Scenario.check ->
      Demo.run Scenario.check Edge.integer_version
      = (Raise (SystemExit 1),
         emit (Stderr (mismatch_message Demo.HEADER_PATH Demo.RECIPE_PATH
                         "1.3.0" "13")) Edge.integer_version)).
Proof.
  exact (plain_scalar_version_is_a_mismatch Demo.HEADER_PATH Demo.RECIPE_PATH
           MiniYaml.load MiniYaml.dump MiniYaml.container_str Scenario.check
           Edge.integer_version _ "1.3.0" _ _ _ (PInt 13)
           eq_refl eq_refl eq_refl eq_refl eq_refl eq_refl eq_refl).
Defined.




Lemma check_reports_what_sync_updates_witness :
  exists content hv text rv,
    header_file Scenario.drifted = Some content
    /\ parse_header content = Some hv
    /\ recipe_file Scenario.drifted = Some text
    /\ read_version MiniYaml.load MiniYaml.container_str text = Ok rv
    /\ rv <> hv
    /\ Demo.run Scenario.check Scenario.drifted
       = (Raise (SystemExit 1),
          emit (Stderr (mismatch_message Demo.HEADER_PATH Demo.RECIPE_PATH
                          hv rv)) Scenario.drifted).
Proof.
  exact (check_reports_what_sync_updates Demo.HEADER_PATH Demo.RECIPE_PATH
           MiniYaml.load MiniYaml.dump MiniYaml.container_str Scenario.sync
           Scenario.check Scenario.drifted not_check_sync in_check eq_refl).
Defined.

Lemma check_passes_after_sync_witness :
  exists hv,
    Demo.run Scenario.check (snd (Demo.run Scenario.sync Scenario.drifted_quoted))
    = (Raise (SystemExit 0),
       emit (Stdout (synced_message hv))
            (snd (Demo.run Scenario.sync Scenario.drifted_quoted)))
    /\ exit_status
         (fst (Demo.run Scenario.check
                 (snd (Demo.run Scenario.sync Scenario.drifted_quoted)))) = 0%Z
    /\ recipe_file
         (snd (Demo.run Scenario.check
                 (snd (Demo.run Scenario.sync Scenario.drifted_quoted))))
       = recipe_file (snd (Demo.run Scenario.sync Scenario.drifted_quoted)).
Proof.
  refine (check_passes_after_sync Demo.HEADER_PATH Demo.RECIPE_PATH
            MiniYaml.load MiniYaml.dump MiniYaml.container_str Scenario.sync
            Scenario.check Scenario.drifted_quoted not_check_sync _ eq_refl).
  intros content hv text doc doc' Hh Hp Hr Hl Hs.
  injection Hh as <-. vm_compute in Hp. injection Hp as <-.
  injection Hr as <-. vm_compute in Hl. injection Hl as <-.
  vm_compute in Hs. injection Hs as <-. reflexivity.
Defined.

